(** * Shallow embedding of the supereight2 mapping core.

    The C++ scalar types [field_t] (float) and [weight_t] are modelled by
    exact rationals [Q]; integer counters and scales are modelled by [Z].
    Heap-allocated arrays and octants are modelled by explicit stores
    (stdpp [gmap]) so that pointer aliasing in the code is kept. *)

From Stdlib Require Import QArith Qminmax Lqa ZArith Lia List.
From stdpp Require Import base gmap list list_tactics.
Import ListNotations.

(* ------------------------------------------------------------------ *)
(** ** Multi-resolution TSDF updater (src/unnamed/part_000) *)
(* ------------------------------------------------------------------ *)

Module Tsdf.
Open Scope Q_scope.

(** Modelled from the spec: [se::math::clamp] (its header is not under
    src/), clamping [x] to the interval [[lo, hi]]. *)
Definition clamp (x lo hi : Q) : Q := Qmax lo (Qmin x hi).

(** [Data<Field::TSDF, ...>]: the field value and its weight. *)
Record DataType := mkData { tsdf : Q; weight : Q }.

(** [PropDataType]: the per-voxel propagation deltas. *)
Record PropDataType := mkPropData { delta_tsdf : Q; delta_weight : Q }.

(** [BlockType::DataUnion] (coordinates and index omitted: [updateVoxel]
    neither reads nor writes them). *)
Record DataUnion := mkDataUnion { data : DataType; prop_data : PropDataType }.

(** [Updater::updateVoxel]; [max_weight] is
    [map_.getDataConfig().max_weight]. *)
Definition updateVoxel (max_weight : Q) (data_union : DataUnion)
    (sdf_value truncation_boundary : Q) : DataUnion :=
  if Qlt_le_dec (- truncation_boundary) sdf_value then
    let tsdf_value := Qmin 1 (sdf_value / truncation_boundary) in
    let d := data data_union in
    let t1 := (tsdf d * weight d + tsdf_value) / (weight d + 1) in
    let t2 := clamp t1 (-1) 1 in
    let w := Qmin (weight d + 1) max_weight in
    let p := prop_data data_union in
    mkDataUnion (mkData t2 w) (mkPropData (delta_tsdf p) (delta_weight p + 1))
  else data_union.

End Tsdf.

(* ------------------------------------------------------------------ *)
(** ** Occupancy voxel data and the ray-integrator kernel
       (src/unnamed/part_003) *)
(* ------------------------------------------------------------------ *)

Module Occ.
Open Scope Q_scope.

(** [data.field] of [Data<Field::Occupancy, ...>]. *)
Record OccField := mkField { occupancy : Q; weight : Q; observed : bool }.

(** [Data<Field::Occupancy, ...>] (colour and id payloads omitted). *)
Record OccData := mkOcc { field : OccField }.

(** The part of [config.field] read by the kernels. *)
Record FieldConfig := mkFieldConfig {
  log_odd_min : Q; log_odd_max : Q; max_weight : Q }.

Section Kernel.
(** [data.field.update(sample, max_weight)]: the field's own fusion rule,
    declared in a header that is not under src/. The kernel is modelled
    for every such rule. *)
Variable field_update : OccField -> Q -> Q -> OccField.

(** [ray_integrator::update_voxel]: returns the updated voxel and
    whether it was newly observed. *)
Definition update_voxel (data : OccData) (range_diff tau three_sigma : Q)
    (config : FieldConfig) : OccData * bool :=
  let lmin := log_odd_min config in
  let lmax := log_odd_max config in
  let sample_value :=
    if Qlt_le_dec range_diff (- three_sigma) then Some lmin
    else if Qlt_le_dec range_diff (tau / 2) then
      Some (Qmin (lmin - lmin / three_sigma * (range_diff + three_sigma)) lmax)
    else if Qlt_le_dec range_diff tau then
      Some (Qmin (- lmin * tau / (2 * three_sigma)) lmax)
    else None in
  match sample_value with
  | None => (data, false)
  | Some s =>
      let newly_observed := negb (observed (field data)) in
      (mkOcc (field_update (field data) s (max_weight config)), newly_observed)
  end.

End Kernel.
End Occ.

(* ------------------------------------------------------------------ *)
(** ** Multi-resolution occupancy block (src/unnamed/part_009) *)
(* ------------------------------------------------------------------ *)

Module OccBlock.
Import Occ.
Open Scope Z_scope.

(** Arrays allocated with [new DataType[n]], addressed by pointers. *)
Abbreviation Heap := (gmap nat (list OccData)).

(** [std::vector] element read [v[i]]; an index out of range is undefined
    behaviour, modelled as [None]. *)
Definition vget {A} (v : list A) (i : Z) : option A :=
  if i <? 0 then None else v !! Z.to_nat i.

(** [v[i] = x] on a [std::vector]. *)
Definition vset {A} (v : list A) (i : Z) (x : A) : option (list A) :=
  if (i <? 0) || (Z.of_nat (length v) <=? i) then None
  else Some (<[Z.to_nat i := x]> v).

(** [v.pop_back()]; undefined on an empty vector. *)
Definition pop_back {A} (v : list A) : option (list A) :=
  match v with [] => None | _ => Some (removelast v) end.

(** [delete[] p]: freeing a pointer that is not live is undefined. *)
Definition free (p : nat) (h : Heap) : option Heap :=
  match h !! p with Some _ => Some (delete p h) | None => None end.

(** [math::cu]. *)
Definition cu (x : Z) : Z := x * x * x.

(** [BlockMultiRes<Data<Field::Occupancy, ...>, BlockSize, DerivedT>]. *)
Record Block := mkBlock {
  coord : Z * Z * Z;
  heap : Heap;
  block_data_ : list nat;
  block_min_data_ : list nat;
  block_max_data_ : list nat;
  buffer_data_ : option nat;     (** [None] is [nullptr] *)
  curr_data_ : option nat;
  init_data_ : OccData;
  current_scale : Z;
  min_scale : Z;
  buffer_scale_ : Z;
  curr_integr_count_ : Z;
  curr_observed_count_ : Z;
  buffer_integr_count_ : Z;
  buffer_observed_count_ : Z }.

(** Replacing the array bookkeeping of a block. *)
Definition with_arrays (b : Block) (h : Heap) (bd bmin bmax : list nat) : Block :=
  {| coord := coord b; heap := h; block_data_ := bd; block_min_data_ := bmin;
     block_max_data_ := bmax; buffer_data_ := buffer_data_ b;
     curr_data_ := curr_data_ b; init_data_ := init_data_ b;
     current_scale := current_scale b; min_scale := min_scale b;
     buffer_scale_ := buffer_scale_ b;
     curr_integr_count_ := curr_integr_count_ b;
     curr_observed_count_ := curr_observed_count_ b;
     buffer_integr_count_ := buffer_integr_count_ b;
     buffer_observed_count_ := buffer_observed_count_ b |}.

Section BlockOps.
(** The template parameter [BlockSize] (a power of two). *)
Variable BlockSize : Z.
(** [DataType()], the value [new DataType[n]] default-constructs. *)
Variable default_data : OccData.

(** [BlockMultiRes::max_scale] = [log2(BlockSize)]. *)
Definition max_scale : Z := Z.log2 BlockSize.

(** [new DataType[n]]: a fresh pointer to [n] default-constructed values. *)
Definition new_array (n : Z) (h : Heap) : nat * Heap :=
  let q := fresh (dom h) in (q, <[q := replicate (Z.to_nat n) default_data]> h).

(** The loop [for (scale = min_scale + 1; scale < new_min_scale; scale++)]
    of [deleteUpTo]. (The C++ loop assigns through a reference to the
    already popped first slot; the slot lies past the vector's end, so
    only the [delete[]] of the read pointer is observable.) *)
Fixpoint delete_loop (fuel : nat) (scale : Z) (h : Heap) (bd bmin bmax : list nat)
    : option (Heap * list nat * list nat * list nat) :=
  match fuel with
  | O => Some (h, bd, bmin, bmax)
  | S f =>
      p ← vget bd (max_scale - scale); h1 ← free p h; bd' ← pop_back bd;
      pm ← vget bmin (max_scale - scale); h2 ← free pm h1; bmin' ← pop_back bmin;
      px ← vget bmax (max_scale - scale); h3 ← free px h2; bmax' ← pop_back bmax;
      delete_loop f (scale + 1) h3 bd' bmin' bmax'
  end.

(** [BlockMultiRes::deleteUpTo]. *)
Definition deleteUpTo (new_min_scale : Z) (b : Block) : option Block :=
  if (min_scale b =? -1) || (new_min_scale <=? min_scale b) then Some b else
  p0 ← vget (block_data_ b) (max_scale - min_scale b);
  h1 ← free p0 (heap b);
  bd1 ← pop_back (block_data_ b);
  bmin1 ← pop_back (block_min_data_ b);
  bmax1 ← pop_back (block_max_data_ b);
  r ← delete_loop (Z.to_nat (new_min_scale - min_scale b - 1)) (min_scale b + 1)
                  h1 bd1 bmin1 bmax1;
  let '(h2, bd2, bmin2, bmax2) := r in
  pm ← vget bmin2 (max_scale - new_min_scale); h3 ← free pm h2;
  bmin3 ← pop_back bmin2;
  q ← vget bd2 (max_scale - new_min_scale);
  px ← vget bmax2 (max_scale - new_min_scale); h4 ← free px h3;
  bmax3 ← pop_back bmax2;
  let b' := with_arrays b h4 bd2 (bmin3 ++ [q]) (bmax3 ++ [q]) in
  Some {| coord := coord b'; heap := heap b'; block_data_ := block_data_ b';
          block_min_data_ := block_min_data_ b'; block_max_data_ := block_max_data_ b';
          buffer_data_ := buffer_data_ b'; curr_data_ := curr_data_ b';
          init_data_ := init_data_ b'; current_scale := current_scale b';
          min_scale := new_min_scale; buffer_scale_ := buffer_scale_ b';
          curr_integr_count_ := curr_integr_count_ b';
          curr_observed_count_ := curr_observed_count_ b';
          buffer_integr_count_ := buffer_integr_count_ b';
          buffer_observed_count_ := buffer_observed_count_ b' |}.

(** The observed-count comparison shared by [incrBufferIntegrCount] and
    [switchData]:
    [buffer_observed_count_ * cu(1 << buffer_scale_)
       >= 0.9 * curr_observed_count_ * cu(1 << current_scale)]. *)
Definition observed_ratio_ok (b : Block) : bool :=
  Qle_bool ((9 # 10) * inject_Z (curr_observed_count_ b)
              * inject_Z (cu (Z.shiftl 1 (current_scale b))))
           (inject_Z (buffer_observed_count_ b * cu (Z.shiftl 1 (buffer_scale_ b)))).

(** [BlockMultiRes::incrBufferIntegrCount]. *)
Definition incrBufferIntegrCount (do_increment : bool) (b : Block) : Block :=
  if do_increment || observed_ratio_ok b then
    {| coord := coord b; heap := heap b; block_data_ := block_data_ b;
       block_min_data_ := block_min_data_ b; block_max_data_ := block_max_data_ b;
       buffer_data_ := buffer_data_ b; curr_data_ := curr_data_ b;
       init_data_ := init_data_ b; current_scale := current_scale b;
       min_scale := min_scale b; buffer_scale_ := buffer_scale_ b;
       curr_integr_count_ := curr_integr_count_ b;
       curr_observed_count_ := curr_observed_count_ b;
       buffer_integr_count_ := buffer_integr_count_ b + 1;
       buffer_observed_count_ := buffer_observed_count_ b |}
  else b.

(** One voxel of the "Update observed state" loop of [switchData]. *)
Definition mark_voxel (d : OccData) : OccData * Z :=
  let f := field d in
  if Qlt_le_dec 0 (weight f) then
    if observed f then (d, 0)
    else (mkOcc (mkField (occupancy f) (weight f) true), 1)
  else (d, 0).

(** The loop over the first [n] voxels of the buffer; reading past the
    array's end is undefined. Returns the array and [missed_observed_count]. *)
Fixpoint mark_observed (n : nat) (arr : list OccData) : option (list OccData * Z) :=
  match n, arr with
  | O, _ => Some (arr, 0)
  | S n', d :: rest =>
      r ← mark_observed n' rest;
      let '(d', k) := mark_voxel d in
      Some (d' :: r.1, k + r.2)
  | S _, [] => None
  end.

(** The ratification condition of [switchData]. *)
Definition switch_cond (b : Block) : bool :=
  (20 <=? buffer_integr_count_ b) && observed_ratio_ok b.

(** The finer-scale branch of [switchData]: push the buffer and give the
    previous finest scale its own min and max arrays. *)
Definition grow_pyramid (b : Block) (p : nat) : option Block :=
  let bd := block_data_ b ++ [p] in
  let bmin := block_min_data_ b ++ [p] in
  let bmax := block_max_data_ b ++ [p] in
  let n := cu (Z.shiftr BlockSize (buffer_scale_ b + 1)) in
  let '(q1, h1) := new_array n (heap b) in
  let '(q2, h2) := new_array n h1 in
  bmin' ← vset bmin (max_scale - (buffer_scale_ b + 1)) q1;
  bmax' ← vset bmax (max_scale - (buffer_scale_ b + 1)) q2;
  Some (with_arrays b h2 bd bmin' bmax').

(** [BlockMultiRes::switchData]; [None] is undefined behaviour. *)
Definition switchData (b : Block) : option (bool * Block) :=
  if switch_cond b then
    p ← buffer_data_ b;
    b1 ← (if buffer_scale_ b <? current_scale b then grow_pyramid b p
          else deleteUpTo (buffer_scale_ b) b);
    arr ← heap b1 !! p;
    r ← mark_observed (Z.to_nat (cu (Z.shiftr BlockSize (buffer_scale_ b)))) arr;
    let '(arr', missed_observed_count) := r in
    Some (true,
      {| coord := coord b1; heap := <[p := arr']> (heap b1);
         block_data_ := block_data_ b1; block_min_data_ := block_min_data_ b1;
         block_max_data_ := block_max_data_ b1;
         buffer_data_ := None; curr_data_ := Some p; init_data_ := init_data_ b1;
         current_scale := buffer_scale_ b; min_scale := buffer_scale_ b;
         buffer_scale_ := -1;
         curr_integr_count_ := buffer_integr_count_ b;
         curr_observed_count_ := buffer_observed_count_ b + missed_observed_count;
         buffer_integr_count_ := 0; buffer_observed_count_ := 0 |})
  else Some (false, b).

(** [BlockMultiRes::getVoxelIdx] (C++ integer division truncates). *)
Definition getVoxelIdx (b : Block) (voxel_coord : Z * Z * Z) (scale : Z) : Z :=
  let '(x, y, z) := voxel_coord in
  let '(cx, cy, cz) := coord b in
  let st := Z.shiftl 1 scale in
  let size_at_scale := Z.shiftr BlockSize scale in
  Z.quot (x - cx) st + Z.quot (y - cy) st * size_at_scale
    + Z.quot (z - cz) st * (size_at_scale * size_at_scale).

(** [arr[i]] for a heap array. *)
Definition read (h : Heap) (p : nat) (i : Z) : option OccData :=
  arr ← h !! p; vget arr i.

(** [block_data_[max_scale - s][getVoxelIdx(voxel_coord, s)]]: the mean
    data stored at scale [s]. *)
Definition stored_at (b : Block) (voxel_coord : Z * Z * Z) (s : Z) : option OccData :=
  p ← vget (block_data_ b) (max_scale - s);
  read (heap b) p (getVoxelIdx b voxel_coord s).

(** [data(voxel_coord, scale_in, scale_out)]: returns the data and
    [scale_out]. *)
Definition data_out (b : Block) (voxel_coord : Z * Z * Z) (scale_in : Z)
    : option OccData * Z :=
  let scale_out := Z.max scale_in (current_scale b) in
  (p ← vget (block_data_ b) (max_scale - scale_out);
   read (heap b) p (getVoxelIdx b voxel_coord scale_out), scale_out).

(** [max_scale - (block_data_.size() - 1) > static_cast<size_t>(scale)],
    evaluated on 64-bit [size_t]. *)
Definition below_finest (b : Block) (scale : Z) : bool :=
  (scale mod 2 ^ 64) <? ((max_scale - (Z.of_nat (length (block_data_ b)) - 1)) mod 2 ^ 64).




(** The block invariant under which [switchData] is specified: an active
    buffer [p] one scale finer than, or at or above, the current scale; one
    array pointer per scale from the coarsest to [current_scale]; the buffer
    already stored in [block_data_] when it is not finer; the mean arrays and
    the min/max arrays of the coarser scales are distinct live pointers (the
    finest min/max slot shares the mean pointer). *)
Definition switch_wf (b : Block) (p : nat) : Prop :=
  buffer_data_ b = Some p /\
  0 <= current_scale b <= max_scale /\
  min_scale b = current_scale b /\
  0 <= buffer_scale_ b <= max_scale /\
  current_scale b - 1 <= buffer_scale_ b /\
  length (block_data_ b) = (Z.to_nat (max_scale - current_scale b) + 1)%nat /\
  length (block_min_data_ b) = length (block_data_ b) /\
  length (block_max_data_ b) = length (block_data_ b) /\
  (exists arr, heap b !! p = Some arr /\
     length arr = Z.to_nat (cu (Z.shiftr BlockSize (buffer_scale_ b))))%nat /\
  (current_scale b <= buffer_scale_ b ->
     block_data_ b !! Z.to_nat (max_scale - buffer_scale_ b) = Some p) /\
  NoDup (block_data_ b ++ removelast (block_min_data_ b) ++ removelast (block_max_data_ b)) /\
  (forall q, q ∈ block_data_ b ++ removelast (block_min_data_ b) ++ removelast (block_max_data_ b) ->
     q ∈ dom (heap b)).

End BlockOps.
End OccBlock.

(* ------------------------------------------------------------------ *)
(** ** Multi-resolution TSDF block accessors (src/unnamed/part_009) *)
(* ------------------------------------------------------------------ *)

Module TsdfBlock.
Open Scope Z_scope.

(** [BlockMultiRes<Data<Field::TSDF, ...>, BlockSize, DerivedT>]: the
    block coordinate, the flat [block_data_] array holding every scale, and
    [current_scale]. *)
Record Block := mkBlock {
  coord : Z * Z * Z;
  block_data_ : list Tsdf.DataType;
  current_scale : Z }.

Section Accessors.
(** The static tables [scale_offsets_] and [size_at_scales_] of the block
    type (their initialisers are not under src/); the accessors are
    modelled for every value of the tables. *)
Variable scale_offsets_ : list Z.
Variable size_at_scales_ : list Z.

(** [getVoxelIdx(voxel_coord, scale)]; Eigen's integer division truncates
    and reading a table out of range is undefined. *)
Definition getVoxelIdx (b : Block) (voxel_coord : Z * Z * Z) (scale : Z) : option Z :=
  let '(x, y, z) := voxel_coord in
  let '(cx, cy, cz) := coord b in
  let st := Z.shiftl 1 scale in
  size_at_scale ← OccBlock.vget size_at_scales_ scale;
  off ← OccBlock.vget scale_offsets_ scale;
  Some (off + Z.quot (x - cx) st + Z.quot (y - cy) st * size_at_scale
          + Z.quot (z - cz) st * (size_at_scale * size_at_scale)).

(** [data(voxel_idx)]. *)
Definition data_idx (b : Block) (voxel_idx : Z) : option Tsdf.DataType :=
  OccBlock.vget (block_data_ b) voxel_idx.

(** The value stored for [voxel_coord] at scale [s]. *)
Definition stored_at (b : Block) (voxel_coord : Z * Z * Z) (s : Z) : option Tsdf.DataType :=
  i ← getVoxelIdx b voxel_coord s; data_idx b i.

(** [data(voxel_coord, scale_desired, scale_returned)]: the data and
    [scale_returned]. *)
Definition data_out (b : Block) (voxel_coord : Z * Z * Z) (scale_desired : Z)
    : option Tsdf.DataType * Z :=
  let scale_returned := Z.max scale_desired (current_scale b) in
  (i ← getVoxelIdx b voxel_coord scale_returned; data_idx b i, scale_returned).

End Accessors.
End TsdfBlock.

(* ------------------------------------------------------------------ *)
(** ** Octree store: allocation and subtree deletion *)
(* ------------------------------------------------------------------ *)

Module Octree.
Import Occ.
Open Scope Z_scope.

(** An octant as the updater sees it: [is_block], [getParent()], the
    eight child pointers of a node ([None] is [nullptr]; a block has no
    children), [getSize()], the timestamp and the min/max aggregates
    ([node.min_data]/[node.max_data] of a node, [minData()]/[maxData()] at
    the coarsest scale of a block). *)
Record Octant := mkOctant {
  is_block : bool;
  parent : option nat;
  children : list (option nat);
  size : Z;
  timestamp : Z;
  min_data : OccData;
  max_data : OccData }.

(** Octants addressed by pointers. *)
Abbreviation Store := (gmap nat Octant).

(** [setChild(child_idx, child_ptr)]. *)
Definition set_child (o : Octant) (child_idx : nat) (c : option nat) : Octant :=
  {| is_block := is_block o; parent := parent o;
     children := <[child_idx := c]> (children o); size := size o;
     timestamp := timestamp o; min_data := min_data o; max_data := max_data o |}.

(** [Octree::deleteChildren] (src/include/se/map/utils/type_util.hpp).
    [fuel] bounds the recursion depth (the octree depth); running out of
    it, reading a freed octant or a child index past the node's array is
    modelled as [None]. *)
Fixpoint deleteChildren (fuel : nat) (s : Store) (parent_ptr : nat) : option Store :=
  match fuel with
  | O => None
  | S f =>
      let step (acc : option Store) (child_idx : nat) : option Store :=
        s0 ← acc;
        node ← s0 !! parent_ptr;
        slot ← children node !! child_idx;
        match slot with
        | None => Some s0
        | Some c =>
            child ← s0 !! c;
            s1 ← (if is_block child then Some s0 else deleteChildren f s0 c);
            let s2 := delete c s1 in
            node1 ← s2 !! parent_ptr;
            Some (<[parent_ptr := set_child node1 child_idx None]> s2)
        end in
      fold_left step (seq 0 8) (Some s)
  end.

Section Allocate.
(** The template parameter [BlockSize]. *)
Variable BlockSize : Z.
(** The octants built by [memory_pool_.allocateBlock(parent_ptr, child_idx)]
    and [memory_pool_.allocateNode(parent_ptr, child_idx)] (the memory pool
    is not under src/); the pool returns an address that is not in use. *)
Variable allocateBlock : nat -> nat -> Octant.
Variable allocateNode : nat -> nat -> Octant.

(** The allocation branch shared by both overloads of [allocate]. *)
Definition alloc_child (s : Store) (parent_ptr : nat) (par : Octant) (child_idx : nat)
    : option (nat * Store) :=
  let child := if bool_decide (size par = Z.shiftl BlockSize 1)
               then allocateBlock parent_ptr child_idx
               else allocateNode parent_ptr child_idx in
  let c := fresh (dom s) in
  let s1 := <[c := child]> s in
  par1 ← s1 !! parent_ptr;
  Some (c, <[parent_ptr := set_child par1 child_idx (Some c)]> s1).

(** [Octree::allocate(parent_ptr, child_idx)] returning the child pointer
    (src/se_map/include/se/octree/impl/octree_impl.hpp); a failed assertion
    or an out-of-range child index is [None]. *)
Definition allocate (s : Store) (parent_ptr : nat) (child_idx : nat) : option (nat * Store) :=
  par ← s !! parent_ptr;
  if is_block par then None else
  slot ← children par !! child_idx;
  match slot with
  | Some c => Some (c, s)
  | None => alloc_child s parent_ptr par child_idx
  end.

(** The [bool] overload [allocate(parent_ptr, child_idx, child_ptr)]:
    returns whether it allocated, and the child pointer. *)
Definition allocate_b (s : Store) (parent_ptr : nat) (child_idx : nat)
    : option (bool * nat * Store) :=
  par ← s !! parent_ptr;
  if is_block par then None else
  slot ← children par !! child_idx;
  match slot with
  | Some c => Some (false, c, s)
  | None => r ← alloc_child s parent_ptr par child_idx; Some (true, r.1, r.2)
  end.

End Allocate.

(* ------------------------------------------------------------------ *)
(** *** Up-propagation of node aggregates (src/unnamed/part_003) *)

(** The locals of [propagate_to_parent_node]; [None] stands for the
    sentinels [std::numeric_limits<field_t>::lowest()] and [max()], which
    every finite occupancy passes. *)
Record PropAcc := mkPropAcc {
  max_occupancy : option Q; max_mean_occupancy : Q; max_weight : Q; max_data_count : Z;
  min_mean_occupancy : Q; min_weight : Q; min_occupancy : option Q; min_data_count : Z;
  observed_count : Z }.

Definition acc0 : PropAcc :=
  mkPropAcc None 0 0 0 0 0 None 0 0.

Section Propagate.
(** [get_field(data)]: the occupancy used to rank the children (declared in
    a header that is not under src/). *)
Variable get_field : OccData -> Q.

(** One iteration of the child loop of [propagate_to_parent_node]. *)
Definition child_step (s : Store) (node : Octant) (acc : option PropAcc) (child_idx : nat)
    : option PropAcc :=
  a ← acc;
  slot ← children node !! child_idx;
  match slot with
  | None => Some a
  | Some c =>
      child ← s !! c;
      let cmin := min_data child in
      let a1 :=
        if Qlt_le_dec 0 (weight (field cmin)) then
          let occ := get_field cmin in
          let lower := match min_occupancy a with None => true
                       | Some m => negb (Qle_bool m occ) end in
          if lower then
            mkPropAcc (max_occupancy a) (max_mean_occupancy a) (max_weight a)
              (max_data_count a) (occupancy (field cmin)) (weight (field cmin))
              (Some occ) (min_data_count a + 1) (observed_count a)
          else a
        else a in
      let cmax := max_data child in
      let a2 :=
        if Qlt_le_dec 0 (weight (field cmax)) then
          let occ := get_field cmax in
          let higher := match max_occupancy a1 with None => true
                        | Some m => negb (Qle_bool occ m) end in
          if higher then
            mkPropAcc (Some occ) (occupancy (field cmax)) (weight (field cmax))
              (max_data_count a1 + 1) (min_mean_occupancy a1) (min_weight a1)
              (min_occupancy a1) (min_data_count a1) (observed_count a1)
          else a1
        else a1 in
      if observed (field cmax) then
        Some (mkPropAcc (max_occupancy a2) (max_mean_occupancy a2) (max_weight a2)
                (max_data_count a2) (min_mean_occupancy a2) (min_weight a2)
                (min_occupancy a2) (min_data_count a2) (observed_count a2 + 1))
      else Some a2
  end.

(** The write-back of one aggregate: [occupancy] and [weight] when
    [count > 0], and [observed = true] only when all 8 children were
    observed. *)
Definition write_aggregate (count : Z) (mean w : Q) (obs_count : Z) (d : OccData) : OccData :=
  if 0 <? count then
    mkOcc (mkField mean w (if obs_count =? 8 then true else observed (field d)))
  else d.

(** [propagate_to_parent_node(octant_ptr, timestamp)]: updates the node
    and returns [node.max_data]. *)
Definition propagate_to_parent_node (s : Store) (octant_ptr : nat) (ts : Z)
    : option (Store * OccData) :=
  node ← s !! octant_ptr;
  if is_block node then None else
  let node1 := {| is_block := is_block node; parent := parent node;
                  children := children node; size := size node; timestamp := ts;
                  min_data := min_data node; max_data := max_data node |} in
  let s1 := <[octant_ptr := node1]> s in
  a ← fold_left (child_step s1 node1) (seq 0 8) (Some acc0);
  let mind := write_aggregate (min_data_count a) (min_mean_occupancy a) (min_weight a)
                (observed_count a) (min_data node1) in
  let maxd := write_aggregate (max_data_count a) (max_mean_occupancy a) (max_weight a)
                (observed_count a) (max_data node1) in
  let node2 := {| is_block := false; parent := parent node1;
                  children := children node1; size := size node1; timestamp := ts;
                  min_data := mind; max_data := maxd |} in
  Some (<[octant_ptr := node2]> s1, maxd).

End Propagate.

(** The child at slot [i] of [node] ([None] for [nullptr]). *)
Definition child_of (s : Store) (node : Octant) (i : nat) : option Octant :=
  slot ← children node !! i; c ← slot; s !! c.

(** All 8 children are allocated and their max aggregate is observed
    ([observed_count == 8]). *)
Definition all_children_observed (s : Store) (node : Octant) : bool :=
  forallb (fun i => match child_of s node i with
                    | Some ch => observed (field (max_data ch)) | None => false end)
          (seq 0 8).

(** Every allocated child's max aggregate is observed (null children are
    ignored). *)
Definition nonnull_children_observed (s : Store) (node : Octant) : bool :=
  forallb (fun i => match child_of s node i with
                    | Some ch => observed (field (max_data ch)) | None => true end)
          (seq 0 8).

(** Some allocated child has a max aggregate with positive weight. *)
Definition some_child_weighted (s : Store) (node : Octant) : bool :=
  existsb (fun i => match child_of s node i with
                    | Some ch => if Qlt_le_dec 0 (weight (field (max_data ch))) then true else false
                    | None => false end)
          (seq 0 8).

(* ------------------------------------------------------------------ *)
(** *** Propagation to the root with pruning (src/unnamed/part_004) *)

(** [std::set<se::OctantBase*>::insert] on a set kept in pointer order. *)
Fixpoint set_insert (x : nat) (l : list nat) : list nat :=
  match l with
  | [] => [x]
  | y :: l' => if Nat.ltb x y then x :: l
               else if Nat.eqb x y then l else y :: set_insert x l'
  end.

Section PropagateToRoot.
(** [frame_] and [map_.getDataConfig().min_occupancy]. *)
Variable frame : Z.
Variable min_occupancy : Q.
(** [updater::propagateToNoteAtCoarserScale(octant_ptr, max_scale, frame_)]
    (not under src/): the updated store and the returned node data; the
    updater is modelled for every such function. *)
Variable propagate : Store -> nat -> option (Store * OccField).
(** A bound on the recursion depth of [deleteChildren]. *)
Variable fuel : nat.

(** The pruning test of [propagateToRoot]. *)
Definition prune_cond (node_data : OccField) : bool :=
  observed node_data
  && Qle_bool (occupancy node_data * weight node_data) ((95 # 100) * min_occupancy).

(** The body of the loop over [node_set_[d]]. A parent read back as
    [nullptr] after propagation is modelled as [None]. *)
Definition process_node (d : nat) (acc : option (Store * list (list nat))) (octant_ptr : nat)
    : option (Store * list (list nat)) :=
  r0 ← acc;
  let '(s, ns) := r0 in
  o ← s !! octant_ptr;
  if bool_decide (timestamp o = frame) then Some (s, ns) else
  match parent o with
  | None => Some (s, ns)
  | Some _ =>
      r ← propagate s octant_ptr;
      let '(s1, node_data) := r in
      o1 ← s1 !! octant_ptr;
      q ← parent o1;
      let ns1 := alter (set_insert q) (d - 1)%nat ns in
      if prune_cond node_data then
        s2 ← deleteChildren fuel s1 octant_ptr; Some (s2, ns1)
      else Some (s1, ns1)
  end.

(** The iteration of the depth loop for depth [d]. *)
Definition depth_pass (acc : option (Store * list (list nat))) (d : nat)
    : option (Store * list (list nat)) :=
  r0 ← acc;
  let '(s, ns) := r0 in
  nodes ← ns !! d;
  fold_left (process_node d) nodes (Some (s, ns)).

(** Adding the parent of one integrated block to
    [node_set_[blockDepth - 1]]. *)
Definition seed (s : Store) (block_depth : nat) (acc : option (list (list nat)))
    (block_ptr : nat) : option (list (list nat)) :=
  ns ← acc;
  b ← s !! block_ptr;
  match parent b with
  | None => Some ns
  | Some q => Some (alter (set_insert q) (block_depth - 1)%nat ns)
  end.

(** [Updater<Occupancy>::propagateToRoot(block_list)], starting from the
    node sets [node_set]; [block_depth] is [octree.getBlockDepth()]. *)
Definition propagateToRoot (s : Store) (root : nat) (block_depth : nat)
    (node_set : list (list nat)) (block_list : list nat) : option Store :=
  ns ← fold_left (seed s block_depth) block_list (Some node_set);
  r ← fold_left depth_pass (rev (seq 1 (block_depth - 1)%nat)) (Some (s, ns));
  let '(s1, _) := r in
  r2 ← propagate s1 root;
  Some r2.1.

End PropagateToRoot.

(* ------------------------------------------------------------------ *)
(** *** Auxiliary definitions for the proofs about octants *)

(** The accumulator invariant of the child loop of
    [propagate_to_parent_node]: [max_occupancy] is unset exactly while
    no child has been counted. *)
Definition acc_inv (a : PropAcc) : Prop :=
  0 <= max_data_count a /\ (max_occupancy a = None <-> max_data_count a = 0).

(** Slot [i] holds an allocated child whose max aggregate is observed. *)
Definition obs_at (s : Store) (node : Octant) (i : nat) : bool :=
  match child_of s node i with
  | Some ch => observed (field (max_data ch)) | None => false end.

(** Slot [i] holds an allocated child whose max aggregate has positive
    weight. *)
Definition w_at (s : Store) (node : Octant) (i : nat) : bool :=
  match child_of s node i with
  | Some ch => if Qlt_le_dec 0 (weight (field (max_data ch))) then true else false
  | None => false end.

Section StepParts.
Variable get_field : OccData -> Q.

(** The [min_data] part of one iteration of the child loop. *)
Definition min_step (cmin : OccData) (a : PropAcc) : PropAcc :=
  if Qlt_le_dec 0 (weight (field cmin)) then
    let occ := get_field cmin in
    let lower := match min_occupancy a with None => true
                 | Some m => negb (Qle_bool m occ) end in
    if lower then
      mkPropAcc (max_occupancy a) (max_mean_occupancy a) (max_weight a)
        (max_data_count a) (occupancy (field cmin)) (weight (field cmin))
        (Some occ) (min_data_count a + 1) (observed_count a)
    else a
  else a.

(** The [max_data] part of one iteration of the child loop. *)
Definition max_step (cmax : OccData) (a1 : PropAcc) : PropAcc :=
  if Qlt_le_dec 0 (weight (field cmax)) then
    let occ := get_field cmax in
    let higher := match max_occupancy a1 with None => true
                  | Some m => negb (Qle_bool occ m) end in
    if higher then
      mkPropAcc (Some occ) (occupancy (field cmax)) (weight (field cmax))
        (max_data_count a1 + 1) (min_mean_occupancy a1) (min_weight a1)
        (min_occupancy a1) (min_data_count a1) (observed_count a1)
    else a1
  else a1.
End StepParts.

(** The [observed_count] part of one iteration of the child loop. *)
Definition obs_step (cmax : OccData) (a2 : PropAcc) : PropAcc :=
  if observed (field cmax) then
    mkPropAcc (max_occupancy a2) (max_mean_occupancy a2) (max_weight a2)
      (max_data_count a2) (min_mean_occupancy a2) (min_weight a2)
      (min_occupancy a2) (min_data_count a2) (observed_count a2 + 1)
  else a2.



End Octree.

(* ------------------------------------------------------------------ *)
(** ** Octree construction (src/include/se/map/utils/type_util.hpp) *)
(* ------------------------------------------------------------------ *)

Module OctreeCtor.
Open Scope Z_scope.

(** Modelled from the spec: [math::power_two_up(x)] (its header is not
    under src/), the smallest power of two not below [x]. *)
Definition power_two_up (x : Z) : Z := 2 ^ Z.log2_up x.

(** The initialiser
    [size_(math::power_two_up(std::max(size, 2 * BlockSize)))] of
    [Octree::Octree(size)]. *)
Definition octree_size (BlockSize size : Z) : Z :=
  power_two_up (Z.max size (2 * BlockSize)).

(** [math::is_power_of_two]. *)
Definition is_power_of_two (x : Z) : Prop := exists k, 0 <= k /\ x = 2 ^ k.

End OctreeCtor.

(* ------------------------------------------------------------------ *)
(** ** Visitor data queries (src/unnamed/part_008) *)
(* ------------------------------------------------------------------ *)

Module Visitor.

Section GetData.
(** The octree's data type and block type. *)
Variable DataType BlockType : Type.
(** The block containing a voxel, if it is allocated. *)
Variable fetch_block : Z * Z * Z -> option BlockType.
(** [block_ptr->data(voxel_coord)]. *)
Variable block_data : BlockType -> Z * Z * Z -> DataType.
(** The octree's initial data [DataType()]. *)
Variable init_data : DataType.


End GetData.
End Visitor.

(* ------------------------------------------------------------------ *)
(** ** Single-resolution block (src/unnamed/part_009) *)
(* ------------------------------------------------------------------ *)

Module SingleRes.
Open Scope Z_scope.

(** [BlockSingleRes<DataT, BlockSize, DerivedT>]: the block coordinate
    ([underlying()->coord]) and the [std::array] [block_data_]. *)
Record Block (A : Type) := mkBlock { coord : Z * Z * Z; block_data_ : list A }.
Arguments mkBlock {A}.
Arguments coord {A}.
Arguments block_data_ {A}.

Section Accessors.
Variable A : Type.
(** The template parameter [BlockSize]; [underlying()->size] is
    [BlockSize] and [underlying()->size_sq] its square. *)
Variable BlockSize : Z.

(** [BlockSingleRes(init_data)] on a block at [c]: [block_data_.fill(init_data)]
    on an array of [BlockSize^3] elements. *)
Definition BlockSingleRes (c : Z * Z * Z) (init_data : A) : Block A :=
  mkBlock c (replicate (Z.to_nat (BlockSize * BlockSize * BlockSize)) init_data).

(** [data(voxel_idx)]: a failed assertion
    [0 <= voxel_idx < block_data_.size()] is [None]. *)
Definition data_idx (b : Block A) (voxel_idx : Z) : option A :=
  OccBlock.vget (block_data_ b) voxel_idx.

(** The index computed by [data(voxel_coord)]. *)
Definition voxel_idx_of (b : Block A) (voxel_coord : Z * Z * Z) : Z :=
  let '(x, y, z) := voxel_coord in
  let '(cx, cy, cz) := coord b in
  (x - cx) + (y - cy) * BlockSize + (z - cz) * (BlockSize * BlockSize).

(** [data(voxel_coord)]. *)
Definition data (b : Block A) (voxel_coord : Z * Z * Z) : option A :=
  data_idx b (voxel_idx_of b voxel_coord).

(** An assignment [data(voxel_coord) = x] through the reference returned
    by the non-const [data(voxel_coord)]. *)
Definition set_data (b : Block A) (voxel_coord : Z * Z * Z) (x : A) : option (Block A) :=
  let i := voxel_idx_of b voxel_coord in
  if (i <? 0) || (Z.of_nat (length (block_data_ b)) <=? i) then None
  else Some (mkBlock (coord b) (<[Z.to_nat i := x]> (block_data_ b))).

End Accessors.
End SingleRes.

(* ------------------------------------------------------------------ *)
(** ** Block placement and octree queries *)
(* ------------------------------------------------------------------ *)

Module Geometry.
Open Scope Z_scope.

(** The coordinate given to a block by
    [Block(parent_ptr, child_idx, init_data)] (src/unnamed/part_009):
    [parent_ptr->coord + BlockSize * Vector3i((1 & child_idx) > 0,
    (2 & child_idx) > 0, (4 & child_idx) > 0)]. *)
Definition child_coord (BlockSize : Z) (parent_coord : Z * Z * Z) (child_idx : Z) : Z * Z * Z :=
  let '(x, y, z) := parent_coord in
  let bit m := if 0 <? Z.land m child_idx then 1 else 0 in
  (x + BlockSize * bit 1, y + BlockSize * bit 2, z + BlockSize * bit 4).

(** [Octree::contains(voxel_coord)] for an octree of side [size_]
    (src/include/se/map/utils/type_util.hpp). *)
Definition contains (size_ : Z) (voxel_coord : Z * Z * Z) : bool :=
  let '(x, y, z) := voxel_coord in
  (0 <=? x) && (x <? size_) && (0 <=? y) && (y <? size_) && (0 <=? z) && (z <? size_).

(** A voxel [v] lies in the cube of side [len] whose corner is [c]. *)
Definition in_cube (c : Z * Z * Z) (len : Z) (v : Z * Z * Z) : Prop :=
  let '(x, y, z) := v in let '(cx, cy, cz) := c in
  cx <= x < cx + len /\ cy <= y < cy + len /\ cz <= z < cz + len.

End Geometry.

(* ------------------------------------------------------------------ *)
(** ** Integration-scale selection (src/unnamed/part_000, part_004) *)
(* ------------------------------------------------------------------ *)

Module Scales.
Open Scope Z_scope.

(** [last_scale] of [Updater<Occupancy>::freeBlock] and [updateBlock]. *)
Definition last_scale (min_scale current_scale : Z) : Z :=
  if min_scale =? -1 then 0 else current_scale.

(** [recommended_scale] of [Updater<Occupancy>::freeBlock] and
    [updateBlock] (src/unnamed/part_004): [computed] is
    [sensor_.computeIntegrationScale(...)], [max_value] is
    [block_ptr->maxValue()], [max_scale] is [BlockType::getMaxScale()]. *)
Definition recommended_scale (min_scale current_scale max_scale : Z)
    (max_value log_odd_min : Q) (fs_integr_scale computed : Z) : Z :=
  let last := last_scale min_scale current_scale in
  let min_integration_scale :=
    if (min_scale =? -1)
       || (if Qlt_le_dec max_value ((95 # 100) * log_odd_min) then true else false)
    then fs_integr_scale else Z.max 0 (last - 1) in
  let max_integration_scale :=
    if min_scale =? -1 then max_scale else Z.min max_scale (last + 1) in
  Z.min (Z.max min_integration_scale computed) max_integration_scale.

(** The scale bookkeeping of one block in the multi-res TSDF
    [Updater::operator()] (src/unnamed/part_000): from
    [(current_scale, min_scale)] and the sensor's [computed] scale,
    [curr_scale = max(computed, last_curr_scale - 1)], then
    [setMinScale(min_scale < 0 ? curr_scale : min(min_scale, curr_scale))]
    and [setCurrentScale(curr_scale)]. *)
Definition tsdf_scale_step (st : Z * Z) (computed : Z) : Z * Z :=
  let '(last_curr_scale, min_scale) := st in
  let curr_scale := Z.max computed (last_curr_scale - 1) in
  (curr_scale, if min_scale <? 0 then curr_scale else Z.min min_scale curr_scale).

End Scales.

(* ------------------------------------------------------------------ *)
(** ** Timestamp propagation (src/include/se/map/utils/type_util.hpp) *)
(* ------------------------------------------------------------------ *)

Module PropVec.
Import Octree.
Open Scope Z_scope.

(** Setting [timestamp] of an octant. *)
Definition set_timestamp (o : Octant) (ts : Z) : Octant :=
  {| is_block := is_block o; parent := parent o; children := children o; size := size o;
     timestamp := ts; min_data := min_data o; max_data := max_data o |}.

(** One iteration of the first loop of
    [propagateToRoot(std::vector<OctantBase*>&, propagate_funct)]: a
    failed [assert(parent_ptr)] is [None]; [child_ptrs] is the
    [unordered_set] kept as a sorted list. *)
Definition first_pass (acc : option (Store * list nat)) (child_ptr : nat)
    : option (Store * list nat) :=
  r ← acc;
  let '(s, child_ptrs) := r in
  c ← s !! child_ptr;
  q ← parent c;
  pq ← s !! q;
  if timestamp pq <? timestamp c
  then Some (<[q := set_timestamp pq (timestamp c)]> s, set_insert q child_ptrs)
  else Some (s, child_ptrs).

Section Loop.
(** [propagate_funct(child_ptr, parent_ptr)] on the store. *)
Variable propagate_funct : Store -> nat -> nat -> Store.

(** The body of the inner [for] loop of the [while] loop. *)
Definition inner (acc : option (Store * list nat)) (child_ptr : nat) : option (Store * list nat) :=
  r ← acc;
  let '(s, parent_ptrs) := r in
  c ← s !! child_ptr;
  match parent c with
  | Some q => Some (propagate_funct s child_ptr q, set_insert q parent_ptrs)
  | None => Some (s, parent_ptrs)
  end.

(** [while (!parent_ptrs.empty()) { ...; std::swap(child_ptrs, parent_ptrs);
    parent_ptrs.clear(); }], with [fuel] bounding the iterations. *)
Fixpoint while_loop (fuel : nat) (s : Store) (child_ptrs parent_ptrs : list nat) : option Store :=
  match parent_ptrs with
  | [] => Some s
  | _ :: _ =>
      match fuel with
      | O => None
      | S f =>
          r ← fold_left inner child_ptrs (Some (s, parent_ptrs));
          let '(s1, parent_ptrs1) := r in
          while_loop f s1 parent_ptrs1 []
      end
  end.

(** [propagateToRoot(octant_ptrs, propagate_funct)]: [parent_ptrs] starts
    empty. *)
Definition propagateToRoot (fuel : nat) (s : Store) (octant_ptrs : list nat) : option Store :=
  r ← fold_left first_pass octant_ptrs (Some (s, []));
  let '(s1, child_ptrs) := r in
  while_loop fuel s1 child_ptrs [].

End Loop.

(** [time_step_prop] of [propagateTimeStampToRoot]. *)
Definition time_step_prop (s : Store) (child_ptr parent_ptr : nat) : Store :=
  match s !! child_ptr, s !! parent_ptr with
  | Some c, Some p =>
      if timestamp p <? timestamp c then <[parent_ptr := set_timestamp p (timestamp c)]> s else s
  | _, _ => s
  end.

(** [propagateTimeStampToRoot(octant_ptrs)]. *)
Definition propagateTimeStampToRoot (fuel : nat) (s : Store) (octant_ptrs : list nat) : option Store :=
  propagateToRoot time_step_prop fuel s octant_ptrs.

End PropVec.

(* ------------------------------------------------------------------ *)
(** ** More of the multi-res occupancy block (src/unnamed/part_009) *)
(* ------------------------------------------------------------------ *)

Module OccBlockExt.
Import Occ OccBlock.
Open Scope Z_scope.

(** Freeing a list of pointers in order, as the [for] loops of the
    destructor do; a pointer that is not live (a double free) is [None]. *)
Fixpoint free_all (ps : list nat) (h : Heap) : option Heap :=
  match ps with
  | [] => Some h
  | p :: ps' => h1 ← free p h; free_all ps' h1
  end.

(** [std::copy(src, src + n, dst)] into a fresh array of [n] elements:
    reading past the end of [src] is undefined. *)
Definition copy_n (n : Z) (src : list OccData) : option (list OccData) :=
  if Z.of_nat (length src) <? n then None else Some (firstn (Z.to_nat n) src).

Section Ext.
(** The template parameter [BlockSize]. *)
Variable BlockSize : Z.
(** [DataType()], the value [new DataType[n]] default-constructs. *)
Variable default_data : OccData.
(** [initialiseData(data_at_scale, n)] (declared in a header outside
    src/), as its effect on the contents of the freshly allocated array. *)
Variable initialiseData : list OccData -> list OccData.

(** The shared shape of [blockDataAtScale], [blockMinDataAtScale] and
    [blockMaxDataAtScale] on the vector [arrs]: a failed assertion is
    [None], [nullptr] is [Some None]. *)
Definition at_scale (arrs : list nat) (b : Block) (scale : Z) : option (option nat) :=
  if (scale <? 0) || (max_scale BlockSize <? scale) then None
  else if scale <? min_scale b then Some None
  else p ← vget arrs (max_scale BlockSize - scale); Some (Some p).

(** [BlockMultiRes::blockDataAtScale]. *)
Definition blockDataAtScale (b : Block) (scale : Z) : option (option nat) :=
  at_scale (block_data_ b) b scale.

(** [BlockMultiRes::blockMinDataAtScale]. *)
Definition blockMinDataAtScale (b : Block) (scale : Z) : option (option nat) :=
  at_scale (block_min_data_ b) b scale.

(** [BlockMultiRes::blockMaxDataAtScale]. *)
Definition blockMaxDataAtScale (b : Block) (scale : Z) : option (option nat) :=
  at_scale (block_max_data_ b) b scale.

(** [BlockMultiRes::resetBuffer]: [delete[] buffer_data_] when the buffer
    is finer than the current scale ([delete[] nullptr] does nothing),
    then [buffer_data_ = nullptr], [buffer_scale_ = -1] and
    [resetBufferCount()]. *)
Definition resetBuffer (b : Block) : option Block :=
  h ← (if buffer_scale_ b <? current_scale b then
         match buffer_data_ b with Some p => free p (heap b) | None => Some (heap b) end
       else Some (heap b));
  Some {| coord := coord b; heap := h; block_data_ := block_data_ b;
          block_min_data_ := block_min_data_ b; block_max_data_ := block_max_data_ b;
          buffer_data_ := None; curr_data_ := curr_data_ b; init_data_ := init_data_ b;
          current_scale := current_scale b; min_scale := min_scale b;
          buffer_scale_ := -1;
          curr_integr_count_ := curr_integr_count_ b;
          curr_observed_count_ := curr_observed_count_ b;
          buffer_integr_count_ := 0; buffer_observed_count_ := 0 |}.

(** Setting [buffer_data_] and [buffer_scale_] (and the heap). *)
Definition with_buffer (b : Block) (h : Heap) (buf : option nat) (s : Z) : Block :=
  {| coord := coord b; heap := h; block_data_ := block_data_ b;
     block_min_data_ := block_min_data_ b; block_max_data_ := block_max_data_ b;
     buffer_data_ := buf; curr_data_ := curr_data_ b; init_data_ := init_data_ b;
     current_scale := current_scale b; min_scale := min_scale b;
     buffer_scale_ := s;
     curr_integr_count_ := curr_integr_count_ b;
     curr_observed_count_ := curr_observed_count_ b;
     buffer_integr_count_ := buffer_integr_count_ b;
     buffer_observed_count_ := buffer_observed_count_ b |}.

(** [BlockMultiRes::initBuffer(buffer_scale)]: a fresh array of
    [cu(BlockSize >> buffer_scale)] voxels for a scale finer than the
    current one, otherwise the block's own mean array at that scale. *)
Definition initBuffer (buffer_scale : Z) (b : Block) : option Block :=
  if (buffer_scale <? 0) || (max_scale BlockSize <? buffer_scale) then None else
  b1 ← resetBuffer b;
  if buffer_scale <? current_scale b1 then
    let '(q, h) := new_array default_data (cu (Z.shiftr BlockSize buffer_scale)) (heap b1) in
    Some (with_buffer b1 h (Some q) buffer_scale)
  else
    p ← vget (block_data_ b1) (max_scale BlockSize - buffer_scale);
    Some (with_buffer b1 (heap b1) (Some p) buffer_scale).

(** The [for] loop of [allocateDownTo], from [scale] down to
    [new_min_scale] ([fuel] iterations): at [new_min_scale] one initialised
    array shared by the three vectors, above it a mean array and min and
    max copies of it. *)
Fixpoint alloc_loop (fuel : nat) (new_min_scale scale : Z) (h : Heap) (bd bmin bmax : list nat)
    : option (Heap * list nat * list nat * list nat) :=
  match fuel with
  | O => Some (h, bd, bmin, bmax)
  | S f =>
      let n := cu (Z.shiftr BlockSize scale) in
      if scale =? new_min_scale then
        let '(q, h1) := new_array default_data n h in
        let h2 := <[q := initialiseData (replicate (Z.to_nat n) default_data)]> h1 in
        alloc_loop f new_min_scale (scale - 1) h2 (bd ++ [q]) (bmin ++ [q]) (bmax ++ [q])
      else
        let '(q, h1) := new_array default_data n h in
        let '(qmin, h2) := new_array default_data n h1 in
        let '(qmax, h3) := new_array default_data n h2 in
        let arr := initialiseData (replicate (Z.to_nat n) default_data) in
        let h4 := <[q := arr]> h3 in
        c1 ← copy_n n arr;
        c2 ← copy_n n arr;
        let h5 := <[qmax := c2]> (<[qmin := c1]> h4) in
        alloc_loop f new_min_scale (scale - 1) h5 (bd ++ [q]) (bmin ++ [qmin]) (bmax ++ [qmax])
  end.

(** [BlockMultiRes::allocateDownTo(new_min_scale)]. The loop's start
    [max_scale - block_data_.size()] is computed in [size_t] and converted
    back to [int], which gives the same value for the sizes a block has. *)
Definition allocateDownTo (new_min_scale : Z) (b : Block) : option Block :=
  if (new_min_scale <? 0) || (max_scale BlockSize <? new_min_scale) then None else
  if negb (below_finest BlockSize b new_min_scale) then Some b else
  bmin1 ← pop_back (block_min_data_ b);
  bmax1 ← pop_back (block_max_data_ b);
  let len := Z.of_nat (length (block_data_ b)) in
  let n := cu (Z.shiftr BlockSize (max_scale BlockSize - (len - 1))) in
  let '(qmin, h1) := new_array default_data n (heap b) in
  let '(qmax, h2) := new_array default_data n h1 in
  p ← vget (block_data_ b) (len - 1);
  arr ← h2 !! p;
  c1 ← copy_n n arr;
  c2 ← copy_n n arr;
  let h3 := <[qmax := c2]> (<[qmin := c1]> h2) in
  r ← alloc_loop (Z.to_nat (max_scale BlockSize - len - new_min_scale + 1)) new_min_scale
                 (max_scale BlockSize - len) h3 (block_data_ b) (bmin1 ++ [qmin]) (bmax1 ++ [qmax]);
  let '(h4, bd, bmin, bmax) := r in
  cd ← vget bd (max_scale BlockSize - new_min_scale);
  Some {| coord := coord b; heap := h4; block_data_ := bd; block_min_data_ := bmin;
          block_max_data_ := bmax; buffer_data_ := buffer_data_ b; curr_data_ := Some cd;
          init_data_ := init_data_ b; current_scale := new_min_scale;
          min_scale := new_min_scale; buffer_scale_ := buffer_scale_ b;
          curr_integr_count_ := curr_integr_count_ b;
          curr_observed_count_ := curr_observed_count_ b;
          buffer_integr_count_ := buffer_integr_count_ b;
          buffer_observed_count_ := buffer_observed_count_ b |}.

(** [BlockMultiRes::~BlockMultiRes()]: the heap after the destructor. *)
Definition destroy (b : Block) : option Heap :=
  h1 ← free_all (block_data_ b) (heap b);
  h2 ← free_all (removelast (block_min_data_ b)) h1;
  h3 ← free_all (removelast (block_max_data_ b)) h2;
  match buffer_data_ b with
  | Some p => if buffer_scale_ b <? min_scale b then free p h3 else Some h3
  | None => Some h3
  end.

End Ext.
End OccBlockExt.

(* ------------------------------------------------------------------ *)
(** ** Concrete inputs used to exercise the specifications *)
(* ------------------------------------------------------------------ *)

Module Examples.
Import Occ.

(** A TSDF voxel with value 1/2 and weight 3. *)
Definition du_example : Tsdf.DataUnion :=
  Tsdf.mkDataUnion (Tsdf.mkData (1 # 2) 3) (Tsdf.mkPropData 0 0).

(** Default-constructed and integrated occupancy voxels. *)
Definition occ_init : OccData := mkOcc (mkField 0 0 false).
Definition occ_free : OccData := mkOcc (mkField (-1) 1 false).

(** An 8^3 occupancy block holding scales 3, 2 and 1 (mean arrays 0, 1, 2;
    min arrays 3, 4; max arrays 5, 6; the finest min/max slot shares array
    2), with a scale-0 buffer at pointer 7 that is ready to be ratified. *)
Definition heap_example : OccBlock.Heap :=
  <[0%nat := replicate 1 occ_init]> (<[1%nat := replicate 8 occ_init]>
  (<[2%nat := replicate 64 occ_init]> (<[3%nat := replicate 1 occ_init]>
  (<[4%nat := replicate 8 occ_init]> (<[5%nat := replicate 1 occ_init]>
  (<[6%nat := replicate 8 occ_init]> (<[7%nat := replicate 512 occ_free]> ∅))))))).

Definition block_example : OccBlock.Block :=
  OccBlock.mkBlock (0, 0, 0)%Z heap_example [0; 1; 2]%nat [3; 4; 2]%nat [5; 6; 2]%nat
    (Some 7%nat) (Some 2%nat) occ_init 1 1 0 5 64 20 512.

(** A field fusion rule: add the sample, count the integration and mark
    the voxel observed. *)
Definition field_update_example (f : OccField) (sample max_w : Q) : OccField :=
  mkField (occupancy f + sample) (Qmin (weight f + 1) max_w) true.

Definition config_example : FieldConfig := mkFieldConfig (-2) 3 100.


(** Octrees. A free block: its coarsest max aggregate is observed, with
    occupancy -10 and weight 1. *)
Import Octree.

Definition leaf_free (p : nat) : Octant :=
  mkOctant true (Some p) [] 8 0 (mkOcc (mkField (-10) 1 true)) (mkOcc (mkField (-10) 1 true)).

(** A root node of size 16 whose 8 children (pointers 1..8) are free
    blocks. *)
Definition root_full : Octant :=
  mkOctant false None (map Some (seq 1 8)) 16 0 occ_init occ_init.

Definition store_full : Store :=
  <[0%nat := root_full]> (list_to_map (map (fun i => (i, leaf_free 0)) (seq 1 8))).

(** A root node with one allocated child (pointer 1) and 7 null slots. *)
Definition root_one : Octant :=
  mkOctant false None (Some 1%nat :: replicate 7 None) 16 0 occ_init occ_init.

Definition store_one : Store := <[0%nat := root_one]> {[1%nat := leaf_free 0]}.




(** [get_field] of an occupancy datum: its occupancy times its weight. *)
Definition get_field_example (d : OccData) : Q := occupancy (field d) * weight (field d).




(** Octants returned by the memory pool. *)
Definition block_alloc_example (p _ : nat) : Octant :=
  mkOctant true (Some p) [] 8 0 occ_init occ_init.

Definition node_alloc_example (p _ : nat) : Octant :=
  mkOctant false (Some p) (replicate 8 None) 8 0 occ_init occ_init.

End Examples.

(* ================================================================== *)
(** * Theorems *)
(* ================================================================== *)

(* ------------------------------------------------------------------ *)
(** ** TSDF voxel update *)
(* ------------------------------------------------------------------ *)

Module TsdfProofs.
Import Tsdf Examples.
Open Scope Q_scope.

#[export] Instance clamp_compat : Proper (Qeq ==> Qeq ==> Qeq ==> Qeq) clamp.
Proof. intros a a' Ha b b' Hb c c' Hc. unfold clamp. rewrite Ha, Hb, Hc. reflexivity. Qed.

(** Above [-1], the one-sided [min(1, x)] of the code is [clamp(x, -1, 1)]. *)
Lemma min1_clamp (x : Q) : -1 < x -> Qmin 1 x == clamp x (-1) 1.
Proof.
  intros H. unfold clamp. destruct (Qlt_le_dec x 1) as [H1|H1].
  - rewrite (Q.min_r 1 x) by (apply Qlt_le_weak; exact H1).
    rewrite (Q.min_l x 1) by (apply Qlt_le_weak; exact H1).
    rewrite Q.max_r by (apply Qlt_le_weak; exact H). reflexivity.
  - rewrite (Q.min_l 1 x) by exact H1. rewrite (Q.min_r x 1) by exact H1.
    rewrite Q.max_r. reflexivity. discriminate.
Qed.

(** Claim C1: for a truncation boundary [tau > 0], if [sdf > -tau] the
    updated value is [clamp((value*weight + clamp(sdf/tau,-1,1))/(weight+1),
    -1, 1)] and the updated weight is [min(weight + 1, max_weight)]; if
    [sdf <= -tau] the voxel is left unchanged. *)
Theorem updateVoxel_spec (max_weight tau sdf : Q) (du : DataUnion) :
  0 < tau ->
  (- tau < sdf ->
     tsdf (data (updateVoxel max_weight du sdf tau)) ==
       clamp ((tsdf (data du) * weight (data du) + clamp (sdf / tau) (-1) 1)
              / (weight (data du) + 1)) (-1) 1
     /\ weight (data (updateVoxel max_weight du sdf tau)) ==
          Qmin (weight (data du) + 1) max_weight) /\
  (sdf <= - tau -> updateVoxel max_weight du sdf tau = du).
Proof.
  intros Htau. split.
  - intros Hs. unfold updateVoxel.
    destruct (Qlt_le_dec (- tau) sdf) as [_|Hn]; [|exfalso; apply (Qlt_not_le _ _ Hs Hn)].
    cbn [data tsdf weight]. split; [|reflexivity].
    assert (Hx : -1 < sdf / tau).
    { apply Qlt_shift_div_l; [exact Htau|].
      assert (E : -1 * tau == - tau) by ring. rewrite E. exact Hs. }
    rewrite (min1_clamp _ Hx). reflexivity.
  - intros Hs. unfold updateVoxel.
    destruct (Qlt_le_dec (- tau) sdf) as [Hl|_];
      [exfalso; apply (Qlt_not_le _ _ Hl Hs)|reflexivity].
Qed.

Lemma updateVoxel_spec_witness :
  0 < 2 /\
  tsdf (data (updateVoxel 5 du_example 1 2)) ==
    clamp ((tsdf (data du_example) * weight (data du_example) + clamp (1 / 2) (-1) 1)
           / (weight (data du_example) + 1)) (-1) 1.
Proof.
  split; [reflexivity|].
  apply (updateVoxel_spec 5 2 1 du_example); reflexivity.
Defined.

End TsdfProofs.

(* ------------------------------------------------------------------ *)
(** ** Occupancy block: buffer ratification *)
(* ------------------------------------------------------------------ *)

Module OccBlockProofs.
Import Occ OccBlock.
Open Scope Z_scope.

Section SwitchData.
Variable BS : Z.
Variable dd : OccData.

Lemma vget_nat {A} (l : list A) (i : Z) : 0 <= i -> vget l i = l !! Z.to_nat i.
Proof. intros H. unfold vget. destruct (Z.ltb_spec i 0); [lia|reflexivity]. Qed.

Lemma vget_app_last {A} (l : list A) (x : A) (i : Z) :
  i = Z.of_nat (length l) -> vget (l ++ [x]) i = Some x.
Proof.
  intros ->. rewrite vget_nat by lia. rewrite Nat2Z.id.
  rewrite lookup_app_r by lia. rewrite Nat.sub_diag. reflexivity.
Qed.

Lemma pop_back_app_last {A} (l : list A) (x : A) : pop_back (l ++ [x]) = Some l.
Proof.
  unfold pop_back. destruct (l ++ [x]) as [|y ys] eqn:E.
  - destruct l; discriminate.
  - rewrite <- E, removelast_last. reflexivity.
Qed.

Lemma free_live (x : nat) (h : Heap) : is_Some (h !! x) -> free x h = Some (delete x h).
Proof. intros [v Hv]. unfold free. rewrite Hv. reflexivity. Qed.

Lemma snoc_of_length {A} (l : list A) n : length l = S n -> exists l' a, l = l' ++ [a] /\ length l' = n.
Proof.
  intros H. destruct (exists_last (l:=l)) as [l' [a E]].
  - intros ->. discriminate.
  - exists l', a. split; [exact E|]. subst l. rewrite length_app in H. simpl in H. lia.
Qed.

Lemma delete_loop_spec (X : list nat) : forall Y Zs A B C s h,
  length Y = length X -> length Zs = length X ->
  length B = length A -> length C = length A ->
  Z.of_nat (length A + length X) = max_scale BS - s + 1 ->
  NoDup (X ++ Y ++ Zs) -> (forall q, q ∈ X ++ Y ++ Zs -> is_Some (h !! q)) ->
  exists h', delete_loop BS (length X) s h (A ++ X) (B ++ Y) (C ++ Zs) = Some (h', A, B, C) /\
             forall q, q ∉ X ++ Y ++ Zs -> h' !! q = h !! q.
Proof.
  induction X as [|x X' IH] using rev_ind; intros Y Zs A B C s h HY HZ HB HC Hlen Hnd Hlive.
  - destruct Y; [|discriminate]. destruct Zs; [|discriminate].
    exists h. rewrite !app_nil_r. split; [reflexivity|]. intros; reflexivity.
  - rewrite length_app in HY, HZ. simpl in HY, HZ.
    rewrite Nat.add_1_r in HY, HZ. rewrite length_app in Hlen. simpl in Hlen.
    destruct (snoc_of_length Y _ HY) as [Y' [y [-> HY']]].
    destruct (snoc_of_length Zs _ HZ) as [Z' [z [-> HZ']]].
    assert (Hperm : (X' ++ [x]) ++ (Y' ++ [y]) ++ (Z' ++ [z]) ≡ₚ x :: y :: z :: (X' ++ Y' ++ Z')).
    { solve_Permutation. }
    rewrite Hperm in Hnd.
    apply NoDup_cons in Hnd as [Hx Hnd]. apply NoDup_cons in Hnd as [Hy Hnd].
    apply NoDup_cons in Hnd as [Hz Hnd].
    assert (Hl : forall q, q ∈ x :: y :: z :: (X' ++ Y' ++ Z') -> is_Some (h !! q)).
    { intros q Hq. apply Hlive. rewrite Hperm. exact Hq. }
    rewrite length_app. simpl. rewrite Nat.add_1_r.
    cbn [delete_loop].
    rewrite !app_assoc.
    rewrite (vget_app_last (A ++ X')) by (rewrite length_app; lia).
    cbn [mbind option_bind].
    rewrite free_live by (apply Hl; set_solver).
    rewrite pop_back_app_last. cbn [mbind option_bind].
    rewrite (vget_app_last (B ++ Y')) by (rewrite length_app; lia).
    cbn [mbind option_bind].
    rewrite free_live by (rewrite lookup_delete_ne; [apply Hl; set_solver| set_solver]).
    rewrite pop_back_app_last. cbn [mbind option_bind].
    rewrite (vget_app_last (C ++ Z')) by (rewrite length_app; lia).
    cbn [mbind option_bind].
    rewrite free_live by (rewrite !lookup_delete_ne; [apply Hl; set_solver| set_solver | set_solver]).
    rewrite pop_back_app_last. cbn [mbind option_bind].
    rewrite <- !app_assoc.
    destruct (IH Y' Z' A B C (s + 1) (delete z (delete y (delete x h)))) as [h' [Hrun Hkeep]];
      try lia; try exact Hnd.
    { intros q Hq. rewrite !lookup_delete_ne; [apply Hl; set_solver|set_solver..]. }
    exists h'. split; [exact Hrun|].
    intros q Hq. rewrite Hkeep by set_solver. rewrite !lookup_delete_ne; set_solver.
Qed.

Lemma deleteUpTo_coarser (b : Block) D p Xs x0 Dm m Ms mlast Dx mx Xxs xlast new :
  block_data_ b = D ++ [p] ++ Xs ++ [x0] ->
  block_min_data_ b = Dm ++ [m] ++ Ms ++ [mlast] ->
  block_max_data_ b = Dx ++ [mx] ++ Xxs ++ [xlast] ->
  length Dm = length D -> length Dx = length D ->
  length Ms = length Xs -> length Xxs = length Xs ->
  0 <= min_scale b -> min_scale b < new ->
  Z.of_nat (length D) = max_scale BS - new ->
  new - min_scale b - 1 = Z.of_nat (length Xs) ->
  NoDup (x0 :: m :: mx :: Xs ++ Ms ++ Xxs) ->
  (forall q, q ∈ x0 :: m :: mx :: Xs ++ Ms ++ Xxs -> is_Some (heap b !! q)) ->
  exists b', deleteUpTo BS new b = Some b' /\ block_data_ b' = D ++ [p] /\
    forall q, q ∉ x0 :: m :: mx :: Xs ++ Ms ++ Xxs -> heap b' !! q = heap b !! q.
Proof.
  intros Hbd Hbmin Hbmax HDm HDx HMs HXxs Hmin Hnew HD Hk Hnd Hl.
  unfold deleteUpTo.
  replace ((min_scale b =? -1) || (new <=? min_scale b)) with false
    by (symmetry; apply orb_false_iff; split; [apply Z.eqb_neq|apply Z.leb_gt]; lia).
  rewrite Hbd, Hbmin, Hbmax.
  rewrite !(app_assoc _ [_]), !app_assoc.
  rewrite vget_app_last by (rewrite !length_app; simpl; lia). cbn [mbind option_bind].
  rewrite free_live by (apply Hl; set_solver). cbn [mbind option_bind].
  rewrite !pop_back_app_last. cbn [mbind option_bind].
  replace (Z.to_nat (new - min_scale b - 1)) with (length Xs) by lia.
  apply NoDup_cons in Hnd as [Hx0 Hnd1].
  pose proof Hnd1 as Hnd2. apply NoDup_cons in Hnd2 as [Hm Hnd2].
  apply NoDup_cons in Hnd2 as [Hmx Hnd3].
  destruct (delete_loop_spec Xs Ms Xxs (D ++ [p]) (Dm ++ [m]) (Dx ++ [mx]) (min_scale b + 1)
              (delete x0 (heap b))) as [h' [Hrun Hkeep]];
    [lia|lia|rewrite !length_app; simpl; lia|rewrite !length_app; simpl; lia
    |rewrite !length_app; simpl; lia|exact Hnd3|..].
  { intros q Hq. rewrite lookup_delete_ne by set_solver. apply Hl. set_solver. }
  rewrite Hrun. cbn [mbind option_bind].
  rewrite !vget_app_last by lia. cbn [mbind option_bind].
  rewrite free_live.
  2:{ rewrite Hkeep by set_solver. rewrite lookup_delete_ne by set_solver. apply Hl. set_solver. }
  cbn [mbind option_bind]. rewrite !pop_back_app_last. cbn [mbind option_bind].
  rewrite free_live.
  2:{ rewrite lookup_delete_ne by set_solver. rewrite Hkeep by set_solver.
      rewrite lookup_delete_ne by set_solver. apply Hl. set_solver. }
  cbn [mbind option_bind].
  eexists. split; [reflexivity|]. cbn. split; [reflexivity|].
  intros q Hq. rewrite !lookup_delete_ne by set_solver. rewrite Hkeep by set_solver.
  rewrite lookup_delete_ne by set_solver. reflexivity.
Qed.

Lemma mark_observed_full (arr : list OccData) :
  exists k, mark_observed (length arr) arr = Some (map (fun d => (mark_voxel d).1) arr, k).
Proof.
  induction arr as [|d arr [k IH]]; [exists 0; reflexivity|].
  cbn [length mark_observed]. rewrite IH. cbn [mbind option_bind].
  destruct (mark_voxel d) as [d' k'] eqn:E. exists (k' + k). simpl. rewrite E. reflexivity.
Qed.

Lemma vset_in_range {A} (l : list A) (i : Z) (x : A) :
  0 <= i < Z.of_nat (length l) -> vset l i x = Some (<[Z.to_nat i := x]> l).
Proof.
  intros H. unfold vset. destruct (Z.ltb_spec i 0); [lia|].
  destruct (Z.leb_spec (Z.of_nat (length l)) i); [lia|reflexivity].
Qed.

Lemma fresh_ne (h : Heap) (p : nat) : p ∈ dom h -> fresh (dom h) <> p.
Proof. intros Hp E. apply (is_fresh (dom h)). rewrite E. exact Hp. Qed.

Lemma split_at {A} (l : list A) (j k : nat) :
  length l = (j + S (S k))%nat ->
  exists D x Xs y, l = D ++ [x] ++ Xs ++ [y] /\ length D = j /\ length Xs = k.
Proof.
  intros Hlen.
  destruct (lookup_lt_is_Some_2 l j) as [x Hx]; [lia|].
  rewrite <- (take_drop_middle l j x Hx).
  destruct (snoc_of_length (drop (S j) l) k) as [Xs [y [E HXs]]].
  { rewrite length_drop. lia. }
  exists (take j l), x, Xs, y. rewrite E. split; [reflexivity|].
  split; [rewrite length_take; lia|exact HXs].
Qed.

(** Claim C2: for a block with an active buffer [p] (invariant
    [switch_wf]), [switchData] returns [true] exactly when
    [buffer_integr_count_ >= 20] and
    [buffer_observed_count_ * (1 << buffer_scale_)^3 >= 0.9 *
    curr_observed_count_ * (1 << current_scale)^3]. On [true] the buffer
    becomes the current data and the finest array of the pyramid (pushed
    for a finer scale, the pyramid truncated to the buffer's scale for a
    coarser one), every buffer voxel with positive weight that was not
    observed is marked observed, and [current_scale] becomes the buffer
    scale; on [false] the block is unchanged. *)
Theorem switchData_spec (b : Block) (p : nat) :
  switch_wf BS b p ->
  exists r b', switchData BS dd b = Some (r, b') /\
    (r = true <-> switch_cond b = true) /\
    (r = true ->
       current_scale b' = buffer_scale_ b /\ curr_data_ b' = Some p /\ buffer_data_ b' = None /\
       (buffer_scale_ b < current_scale b -> block_data_ b' = block_data_ b ++ [p]) /\
       (current_scale b <= buffer_scale_ b ->
          block_data_ b' = take (Z.to_nat (max_scale BS - buffer_scale_ b) + 1)%nat (block_data_ b)) /\
       last (block_data_ b') = Some p /\
       (exists arr, heap b !! p = Some arr /\
          heap b' !! p = Some (map (fun d => (mark_voxel d).1) arr))) /\
    (r = false -> b' = b).
Proof.
  intros (Hbuf & Hcs & Hms & Hbs & Hbs1 & Hlen & Hlmin & Hlmax & [arr [Harr Hlarr]] & Hidx & Hnd & Hdom).
  unfold switchData. destruct (switch_cond b) eqn:Hc.
  2:{ exists false, b. split; [reflexivity|]. split; [split; discriminate|].
      split; [discriminate|reflexivity]. }
  rewrite Hbuf. cbn [mbind option_bind].
  assert (Hb1 : exists b1,
    (if buffer_scale_ b <? current_scale b then grow_pyramid BS dd b p
     else deleteUpTo BS (buffer_scale_ b) b) = Some b1 /\
    heap b1 !! p = Some arr /\
    (buffer_scale_ b < current_scale b -> block_data_ b1 = block_data_ b ++ [p]) /\
    (current_scale b <= buffer_scale_ b ->
       block_data_ b1 = take (Z.to_nat (max_scale BS - buffer_scale_ b) + 1)%nat (block_data_ b)) /\
    last (block_data_ b1) = Some p).
  { destruct (Z.ltb_spec (buffer_scale_ b) (current_scale b)) as [Hf|Hf].
    - (* finer: grow the pyramid *)
      assert (Hpd : p ∈ dom (heap b)) by (apply elem_of_dom; eauto).
      unfold grow_pyramid, new_array. cbv zeta.
      rewrite !vset_in_range by (rewrite length_app; simpl; lia).
      cbn [mbind option_bind]. eexists. split; [reflexivity|].
      cbn [with_arrays heap block_data_].
      split.
      { rewrite lookup_insert_ne.
        - rewrite lookup_insert_ne by (apply fresh_ne; exact Hpd). exact Harr.
        - apply fresh_ne. rewrite dom_insert. set_solver. }
      split; [reflexivity|]. split; [lia|]. apply last_snoc.
    - destruct (Z.eq_dec (buffer_scale_ b) (current_scale b)) as [Heq|Hne].
      + (* same scale: nothing to delete *)
        unfold deleteUpTo.
        replace ((min_scale b =? -1) || (buffer_scale_ b <=? min_scale b)) with true
          by (symmetry; apply orb_true_iff; right; apply Z.leb_le; lia).
        eexists. split; [reflexivity|]. split; [exact Harr|]. split; [lia|].
        assert (Hj : (Z.to_nat (max_scale BS - buffer_scale_ b) + 1 = length (block_data_ b))%nat)
          by lia.
        rewrite Hj, take_ge by lia. split; [reflexivity|].
        specialize (Hidx Hf). rewrite last_lookup, <- Hidx. f_equal. lia.
      + (* coarser: truncate the pyramid *)
        specialize (Hidx Hf).
        set (j := Z.to_nat (max_scale BS - buffer_scale_ b)).
        set (k := Z.to_nat (buffer_scale_ b - current_scale b - 1)).
        assert (HL : length (block_data_ b) = (j + S (S k))%nat) by (subst j k; lia).
        destruct (split_at (block_data_ b) j k HL) as [D [x [Xs [x0 [Hbd [HD HXs]]]]]].
        destruct (split_at (block_min_data_ b) j k) as [Dm [m [Ms [mlast [Hbmin [HDm HMs]]]]]];
          [lia|].
        destruct (split_at (block_max_data_ b) j k) as [Dx [mx [Xxs [xlast [Hbmax [HDx HXxs]]]]]];
          [lia|].
        assert (x = p).
        { rewrite Hbd, lookup_app_r in Hidx by lia. fold j in Hidx.
          rewrite HD, Nat.sub_diag in Hidx. simpl in Hidx. congruence. }
        subst x.
        rewrite Hbd, Hbmin, Hbmax in Hnd, Hdom.
        assert (Hr : forall (A0 B0 : list nat) y z, removelast (A0 ++ [y] ++ B0 ++ [z]) = A0 ++ [y] ++ B0).
        { intros. rewrite (app_assoc [y]), (app_assoc A0), removelast_last. reflexivity. }
        rewrite !Hr in Hnd, Hdom.
        assert (Hperm : (D ++ [p] ++ Xs ++ [x0]) ++ (Dm ++ [m] ++ Ms) ++ (Dx ++ [mx] ++ Xxs)
                        ≡ₚ (x0 :: m :: mx :: Xs ++ Ms ++ Xxs) ++ (p :: D ++ Dm ++ Dx))
          by solve_Permutation.
        rewrite Hperm in Hnd.
        apply NoDup_app in Hnd as [Hnd1 [Hdisj _]].
        assert (Hp : p ∉ x0 :: m :: mx :: Xs ++ Ms ++ Xxs).
        { intros Hin. apply (Hdisj p Hin). set_solver. }
        destruct (deleteUpTo_coarser b D p Xs x0 Dm m Ms mlast Dx mx Xxs xlast (buffer_scale_ b)
                    Hbd Hbmin Hbmax) as [b1 [Hrun [Hbd1 Hkeep]]];
          [lia|lia|lia|lia|lia|lia|subst j; lia|subst k; lia|exact Hnd1|..].
        { intros q Hq. apply elem_of_dom, Hdom. rewrite Hperm. apply elem_of_app. left. exact Hq. }
        exists b1. split; [exact Hrun|]. split; [rewrite Hkeep by exact Hp; exact Harr|].
        split; [lia|]. rewrite Hbd1. split; [|apply last_snoc].
        fold j. rewrite Hbd, (app_assoc D [p]), take_app_length'; [reflexivity|].
        rewrite length_app, HD. simpl. lia. }
  destruct Hb1 as [b1 [Hrun [Harr1 [Hfin [Hcoa Hlast]]]]].
  rewrite Hrun. cbn [mbind option_bind]. rewrite Harr1. cbn [mbind option_bind].
  rewrite <- Hlarr. destruct (mark_observed_full arr) as [k Hk]. rewrite Hk.
  cbn [mbind option_bind].
  eexists true, _. split; [reflexivity|]. split; [split; auto|].
  split; [|discriminate]. intros _. cbn.
  split; [reflexivity|]. split; [reflexivity|]. split; [reflexivity|].
  split; [exact Hfin|]. split; [exact Hcoa|]. split; [exact Hlast|].
  exists arr. split; [exact Harr|]. by rewrite lookup_insert_eq.
Qed.

End SwitchData.

Lemma switchData_spec_witness :
  switch_wf 8 Examples.block_example 7 /\
  exists r b', switchData 8 Examples.occ_init Examples.block_example = Some (r, b').
Proof.
  assert (Hwf : switch_wf 8 Examples.block_example 7).
  { unfold switch_wf. cbn.
    repeat split; try lia; try reflexivity.
    all: try (eexists; split; reflexivity).
    all: try (intros H; cbn in H; lia).
    all: try (repeat constructor; set_solver). }
  split; [exact Hwf|].
  destruct (switchData_spec 8 Examples.occ_init Examples.block_example 7 Hwf)
    as (r & b' & Hrun & _).
  exists r, b'. exact Hrun.
Defined.

(** Claim C10: [incrBufferIntegrCount(do_increment)] increments
    [buffer_integr_count_] when [do_increment] is true, and also when it is
    false but [buffer_observed_count_ * (1 << buffer_scale_)^3 >=
    0.90 * curr_observed_count_ * (1 << current_scale)^3] already holds;
    otherwise the count is unchanged. *)
Theorem incrBufferIntegrCount_spec (do_increment : bool) (b : Block) :
  let ratio_holds :=
    ((9 # 10) * inject_Z (curr_observed_count_ b) * inject_Z (cu (Z.shiftl 1 (current_scale b)))
     <= inject_Z (buffer_observed_count_ b * cu (Z.shiftl 1 (buffer_scale_ b))))%Q in
  let b' := incrBufferIntegrCount do_increment b in
  (do_increment = true -> buffer_integr_count_ b' = buffer_integr_count_ b + 1) /\
  (do_increment = false -> ratio_holds ->
     buffer_integr_count_ b' = buffer_integr_count_ b + 1) /\
  (do_increment = false -> ~ ratio_holds -> b' = b).
Proof.
  intros ratio_holds b'. subst b'. unfold incrBufferIntegrCount.
  split; [intros ->; reflexivity|]. split.
  - intros -> Hr. unfold observed_ratio_ok. rewrite (proj2 (Qle_bool_iff _ _) Hr). reflexivity.
  - intros -> Hr. unfold observed_ratio_ok.
    destruct (Qle_bool _ _) eqn:E; [|reflexivity].
    exfalso. apply Hr. apply Qle_bool_iff. exact E.
Qed.

Lemma incrBufferIntegrCount_spec_witness :
  buffer_integr_count_ (incrBufferIntegrCount false Examples.block_example) = 21.
Proof.
  apply (incrBufferIntegrCount_spec false Examples.block_example); [reflexivity|].
  apply Qle_bool_iff. vm_compute. reflexivity.
Defined.

(** Claim C7: for both block flavours, [data(voxel_coord, desired_scale)]
    returns the value stored at scale [max(desired_scale, current_scale)]
    and reports that scale. *)
Theorem data_out_scale (BS : Z) (scale_offsets size_at_scales : list Z)
    (b : Block) (tb : TsdfBlock.Block) (voxel_coord : Z * Z * Z) (desired_scale : Z) :
  data_out BS b voxel_coord desired_scale
    = (stored_at BS b voxel_coord (Z.max desired_scale (current_scale b)),
       Z.max desired_scale (current_scale b)) /\
  TsdfBlock.data_out scale_offsets size_at_scales tb voxel_coord desired_scale
    = (TsdfBlock.stored_at scale_offsets size_at_scales tb voxel_coord
         (Z.max desired_scale (TsdfBlock.current_scale tb)),
       Z.max desired_scale (TsdfBlock.current_scale tb)).
Proof. split; reflexivity. Qed.



End OccBlockProofs.

(* ------------------------------------------------------------------ *)
(** ** Occupancy ray-integrator kernel *)
(* ------------------------------------------------------------------ *)

Module OccProofs.
Import Occ.
Open Scope Q_scope.

(** Claim C3: for [tau >= 0] and [three_sigma >= 0], the fused sample is
    [log_odd_min] below [-three_sigma]; the ramp
    [min(log_odd_min - log_odd_min/three_sigma*(range_diff + three_sigma),
    log_odd_max)] on [[-three_sigma, tau/2)]; the constant
    [min(-log_odd_min*tau/(2*three_sigma), log_odd_max)] on [[tau/2, tau)];
    and at or beyond [tau] the voxel is not updated. *)
Theorem update_voxel_spec (field_update : OccField -> Q -> Q -> OccField)
    (data : OccData) (range_diff tau three_sigma : Q) (config : FieldConfig) :
  0 <= tau -> 0 <= three_sigma ->
  let lmin := log_odd_min config in
  let lmax := log_odd_max config in
  let fused s := (mkOcc (field_update (field data) s (max_weight config)),
                  negb (observed (field data))) in
  (range_diff < - three_sigma ->
     update_voxel field_update data range_diff tau three_sigma config = fused lmin) /\
  (- three_sigma <= range_diff < tau / 2 ->
     update_voxel field_update data range_diff tau three_sigma config
     = fused (Qmin (lmin - lmin / three_sigma * (range_diff + three_sigma)) lmax)) /\
  (tau / 2 <= range_diff < tau ->
     update_voxel field_update data range_diff tau three_sigma config
     = fused (Qmin (- lmin * tau / (2 * three_sigma)) lmax)) /\
  (tau <= range_diff ->
     update_voxel field_update data range_diff tau three_sigma config = (data, false)).
Proof.
  intros Htau Hts lmin lmax fused. unfold update_voxel.
  assert (Ehalf : tau / 2 == (1 # 2) * tau) by field.
  destruct (Qlt_le_dec range_diff (- three_sigma)) as [H1|H1];
  [|destruct (Qlt_le_dec range_diff (tau / 2)) as [H2|H2];
    [|destruct (Qlt_le_dec range_diff tau) as [H3|H3]]].
  all: repeat split; intros Hc; try reflexivity; exfalso;
       try match type of Hc with _ /\ _ => destruct Hc end; lra.
Qed.

Lemma update_voxel_spec_witness :
  0 <= 4 /\ 0 <= 3 /\
  update_voxel Examples.field_update_example Examples.occ_free 5 4 3 Examples.config_example
  = (Examples.occ_free, false).
Proof.
  assert (H4 : 0 <= 4) by (apply Qle_bool_imp_le; reflexivity).
  assert (H3 : 0 <= 3) by (apply Qle_bool_imp_le; reflexivity).
  split; [exact H4|]. split; [exact H3|].
  apply (update_voxel_spec Examples.field_update_example Examples.occ_free 5 4 3
           Examples.config_example H4 H3).
  apply Qle_bool_imp_le; reflexivity.
Defined.

End OccProofs.

(* ------------------------------------------------------------------ *)
(** ** Octree construction *)
(* ------------------------------------------------------------------ *)

Module OctreeCtorProofs.
Import OctreeCtor.
Open Scope Z_scope.

(** Claim C8: for a block size [B > 0] and every requested size, the
    constructed octree's side length is a power of two, is at least the
    requested size and at least [2*B], and is the least such power of two. *)
Theorem octree_size_spec (BlockSize size : Z) :
  0 < BlockSize ->
  is_power_of_two (octree_size BlockSize size) /\
  size <= octree_size BlockSize size /\
  2 * BlockSize <= octree_size BlockSize size /\
  (forall t, is_power_of_two t -> size <= t -> 2 * BlockSize <= t ->
     octree_size BlockSize size <= t).
Proof.
  intros HB. unfold octree_size, power_two_up.
  set (x := Z.max size (2 * BlockSize)).
  assert (Hx : 1 < x) by (unfold x; lia).
  assert (Hxs : size <= x /\ 2 * BlockSize <= x) by (unfold x; lia).
  pose proof (Z.log2_up_spec x Hx) as [_ Hup].
  split; [exists (Z.log2_up x); split; [apply Z.log2_up_nonneg|reflexivity]|].
  split; [lia|]. split; [lia|].
  intros t [k [Hk ->]] Hs H2.
  apply Z.pow_le_mono_r; [lia|].
  apply Z.log2_up_le_pow2; [lia|unfold x; lia].
Qed.

Lemma octree_size_spec_witness :
  octree_size 8 100 = 128 /\ is_power_of_two (octree_size 8 100) /\ 100 <= octree_size 8 100.
Proof.
  destruct (octree_size_spec 8 100 ltac:(lia)) as [Hp [Hs _]].
  split; [reflexivity|]. split; [exact Hp|exact Hs].
Defined.

End OctreeCtorProofs.

(* ------------------------------------------------------------------ *)
(** ** Octree allocation, propagation and pruning *)

Module OctreeProofs.
Import Occ Octree.
Open Scope Z_scope.

(** *** Child allocation *)

Section Alloc.
Variable BS : Z.
Variable aB aN : nat -> nat -> Octant.

Lemma allocate_existing (s : Store) (p : nat) (idx : nat) (par : Octant) (c : nat) :
  s !! p = Some par -> is_block par = false -> children par !! idx = Some (Some c) ->
  allocate BS aB aN s p idx = Some (c, s) /\ allocate_b BS aB aN s p idx = Some (false, c, s).
Proof.
  intros Hp Hb Hc. unfold allocate, allocate_b. rewrite Hp. cbn [mbind option_bind].
  rewrite Hb, Hc. split; reflexivity.
Qed.

(** Claim C6: for a non-block parent and an in-range child index, an already
    allocated child is returned as is, with the store and the [bool]
    overload reporting no allocation; otherwise the first call allocates
    exactly one octant, and calling again with the same parent and index
    returns the same pointer and allocates nothing. *)
Theorem allocate_idempotent (s : Store) (p : nat) (idx : nat) (par : Octant) :
  s !! p = Some par -> is_block par = false -> (idx < length (children par))%nat ->
  (forall c, children par !! idx = Some (Some c) ->
     allocate BS aB aN s p idx = Some (c, s) /\ allocate_b BS aB aN s p idx = Some (false, c, s)) /\
  exists c s1,
    allocate BS aB aN s p idx = Some (c, s1) /\
    allocate BS aB aN s1 p idx = Some (c, s1) /\
    allocate_b BS aB aN s1 p idx = Some (false, c, s1) /\
    dom s ⊆ dom s1 /\ dom s1 ⊆ {[c]} ∪ dom s.
Proof.
  intros Hp Hb Hlen. split; [intros c; apply allocate_existing; assumption|].
  destruct (lookup_lt_is_Some_2 (children par) idx Hlen) as [slot Hslot].
  destruct slot as [c|].
  - exists c, s. destruct (allocate_existing s p idx par c Hp Hb Hslot) as [H1 H2].
    split; [exact H1|]. split; [exact H1|]. split; [exact H2|]. set_solver.
  - assert (Hpd : p ∈ dom s) by (apply elem_of_dom; eauto).
    assert (Hne : fresh (dom s) <> p).
    { intros E. apply (is_fresh (dom s)). rewrite E. exact Hpd. }
    unfold allocate. rewrite Hp. cbn [mbind option_bind]. rewrite Hb, Hslot.
    unfold alloc_child. rewrite lookup_insert_ne by exact Hne. rewrite Hp.
    cbn [mbind option_bind].
    eexists _, _. split; [reflexivity|].
    assert (Hc : children (set_child par idx (Some (fresh (dom s)))) !! idx
                 = Some (Some (fresh (dom s)))).
    { cbn [set_child children]. apply list_lookup_insert_eq. exact Hlen. }
    assert (Hb' : is_block (set_child par idx (Some (fresh (dom s)))) = false) by exact Hb.
    split; [rewrite lookup_insert_eq; cbn [mbind option_bind]; rewrite Hb', Hc; reflexivity|].
    split; [unfold allocate_b; rewrite lookup_insert_eq; cbn [mbind option_bind];
            rewrite Hb', Hc; reflexivity|].
    rewrite !dom_insert_L. split; set_solver.
Qed.

End Alloc.

(** *** Propagation of the observed flag to a parent node *)

Section Prop5.
Variable gf : OccData -> Q.


Lemma child_step_eq (S : Store) (N : Octant) (a : PropAcc) (i : nat) :
  child_step gf S N (Some a) i =
  (slot ← children N !! i;
   match slot with
   | None => Some a
   | Some c => child ← S !! c;
       Some (obs_step (max_data child) (max_step gf (max_data child) (min_step gf (min_data child) a)))
   end).
Proof.
  unfold child_step. cbn [mbind option_bind].
  destruct (children N !! i) as [[c|]|]; [|reflexivity|reflexivity].
  cbn [mbind option_bind]. destruct (S !! c) as [ch|]; [|reflexivity].
  cbn [mbind option_bind]. unfold obs_step. destruct (observed (field (max_data ch))); reflexivity.
Qed.

Lemma min_step_fields (cmin : OccData) (a : PropAcc) :
  max_occupancy (min_step gf cmin a) = max_occupancy a /\
  max_data_count (min_step gf cmin a) = max_data_count a /\
  observed_count (min_step gf cmin a) = observed_count a.
Proof.
  unfold min_step. cbv zeta. destruct (Qlt_le_dec _ _); [|auto].
  destruct (min_occupancy a); [destruct (negb _)|]; cbn; auto.
Qed.

Lemma max_step_spec (cmax : OccData) (a : PropAcc) :
  acc_inv a ->
  acc_inv (max_step gf cmax a) /\
  observed_count (max_step gf cmax a) = observed_count a /\
  (0 < max_data_count (max_step gf cmax a) <->
     0 < max_data_count a \/ (if Qlt_le_dec 0 (weight (field cmax)) then true else false) = true).
Proof.
  intros [Hi1 Hi2]. unfold max_step. cbv zeta.
  destruct (Qlt_le_dec 0 (weight (field cmax))) as [Hw|Hw].
  - destruct (max_occupancy a) as [m|] eqn:Em.
    + assert (Hc : max_data_count a <> 0) by (intros E; apply Hi2 in E; congruence).
      destruct (negb (Qle_bool (gf cmax) m)); unfold acc_inv; cbn.
      * split; [split; [lia|split; intros; [discriminate|lia]]|]. split; [reflexivity|].
        split; intros; [right; reflexivity|lia].
      * split; [split; [lia|rewrite Em; exact Hi2]|]. split; [reflexivity|].
        split; intros; [left; exact H|lia].
    + assert (Hc : max_data_count a = 0) by (apply Hi2; reflexivity).
      unfold acc_inv; cbn. split; [split; [lia|split; intros; [discriminate|lia]]|]. split; [reflexivity|].
      split; intros; [right; reflexivity|lia].
  - split; [split; assumption|]. split; [reflexivity|].
    split; [auto|intros [H|H]; [exact H|discriminate]].
Qed.

Lemma child_step_spec (S : Store) (N : Octant) (a : PropAcc) (i : nat) :
  acc_inv a -> (i < length (children N))%nat ->
  (forall c, children N !! i = Some (Some c) -> is_Some (S !! c)) ->
  exists a', child_step gf S N (Some a) i = Some a' /\ acc_inv a' /\
    observed_count a' = observed_count a + (if obs_at S N i then 1 else 0) /\
    (0 < max_data_count a' <-> 0 < max_data_count a \/ w_at S N i = true).
Proof.
  intros Hinv Hlt Hlive. rewrite child_step_eq.
  unfold obs_at, w_at, child_of.
  destruct (lookup_lt_is_Some_2 _ _ Hlt) as [slot Hs]. rewrite Hs. cbn [mbind option_bind].
  destruct slot as [c|].
  2:{ exists a. split; [reflexivity|]. split; [exact Hinv|]. simpl.
      split; [lia|]. split; [auto|intros [H|H]; [exact H|discriminate]]. }
  destruct (Hlive c Hs) as [ch Hch]. rewrite Hch. cbn [mbind option_bind].
  eexists. split; [reflexivity|].
  destruct (min_step_fields (min_data ch) a) as (E1 & E2 & E3).
  assert (Hinv1 : acc_inv (min_step gf (min_data ch) a)).
  { destruct Hinv as [H1 H2]. split; rewrite ?E1, ?E2; assumption. }
  destruct (max_step_spec (max_data ch) _ Hinv1) as (Hinv2 & E4 & E5).
  rewrite E2 in E5. rewrite E3 in E4.
  rewrite ?Hch. cbn [mbind option_bind].
  unfold obs_step. destruct (observed (field (max_data ch))); cbn.
  - split; [destruct Hinv2; split; assumption|]. split; [lia|exact E5].
  - split; [exact Hinv2|]. split; [lia|exact E5].
Qed.

Lemma fold_child_step (S : Store) (N : Octant) (L : list nat) (a : PropAcc) :
  acc_inv a -> (forall i, In i L -> (i < length (children N))%nat) ->
  (forall i c, children N !! i = Some (Some c) -> is_Some (S !! c)) ->
  exists a', fold_left (child_step gf S N) L (Some a) = Some a' /\ acc_inv a' /\
    observed_count a' = observed_count a + Z.of_nat (length (List.filter (obs_at S N) L)) /\
    (0 < max_data_count a' <-> 0 < max_data_count a \/ existsb (w_at S N) L = true).
Proof.
  revert a. induction L as [|i L IH]; intros a Hinv Hidx Hlive.
  - exists a. split; [reflexivity|]. split; [exact Hinv|]. cbn. split; [lia|].
    split; [auto|intros [H|H]; [exact H|discriminate]].
  - destruct (child_step_spec S N a i Hinv (Hidx i (or_introl eq_refl)) (Hlive i))
      as (a1 & Hs & Hinv1 & Hobs1 & Hmax1).
    cbn [fold_left]. rewrite Hs.
    destruct (IH a1 Hinv1 (fun j Hj => Hidx j (or_intror Hj)) Hlive)
      as (a' & Hf & Hinv' & Hobs' & Hmax').
    exists a'. split; [exact Hf|]. split; [exact Hinv'|].
    split.
    + rewrite Hobs', Hobs1. cbn [List.filter]. destruct (obs_at S N i); cbn [length]; lia.
    + rewrite Hmax', Hmax1. cbn [existsb]. rewrite orb_true_iff. tauto.
Qed.

Lemma filter_length_le_aux (f : nat -> bool) (L : list nat) :
  (length (List.filter f L) <= length L)%nat.
Proof. induction L as [|i L IH]; cbn; [lia|]. destruct (f i); cbn; lia. Qed.


Lemma filter_full (f : nat -> bool) (L : list nat) :
  (length (List.filter f L) =? length L)%nat = forallb f L.
Proof.
  induction L as [|i L IH]; [reflexivity|]. cbn. destruct (f i); cbn; [exact IH|].
  pose proof (filter_length_le_aux f L). apply Nat.eqb_neq. lia.
Qed.

Lemma obs_w_insert (s : Store) (ptr : nat) (node node1 : Octant) (i : nat) :
  s !! ptr = Some node -> children node1 = children node -> max_data node1 = max_data node ->
  obs_at (<[ptr := node1]> s) node1 i = obs_at s node i /\
  w_at (<[ptr := node1]> s) node1 i = w_at s node i.
Proof.
  intros Hn Hc Hm. unfold obs_at, w_at, child_of. rewrite Hc.
  destruct (children node !! i) as [[c|]|]; cbn [mbind option_bind]; [|auto|auto].
  destruct (decide (ptr = c)) as [<-|Hne].
  - rewrite lookup_insert_eq, Hn, Hm. auto.
  - rewrite lookup_insert_ne by exact Hne. auto.
Qed.

(** Claim C5 (amended): for a non-block node with 8 child slots whose
    allocated children are all in the store, [propagate_to_parent_node]
    succeeds, and afterwards the node's max aggregate is observed iff it
    was observed before, or all 8 children are allocated with an observed
    max aggregate and some child's max aggregate has positive weight. *)
Theorem propagate_observed (s : Store) (ptr : nat) (ts : Z) (node : Octant) :
  s !! ptr = Some node -> is_block node = false -> length (children node) = 8%nat ->
  (forall i c, children node !! i = Some (Some c) -> is_Some (s !! c)) ->
  exists s' node', propagate_to_parent_node gf s ptr ts = Some (s', max_data node') /\
    s' !! ptr = Some node' /\
    observed (field (max_data node')) =
      observed (field (max_data node))
      || (all_children_observed s node && some_child_weighted s node).
Proof.
  intros Hn Hb Hlen Hlive. unfold propagate_to_parent_node. rewrite Hn.
  cbn [mbind option_bind]. rewrite Hb.
  match goal with |- context [fold_left (child_step gf ?S ?N) _ _] =>
    set (S1 := S); set (N1 := N) end.
  assert (Hins : forall i, obs_at S1 N1 i = obs_at s node i /\ w_at S1 N1 i = w_at s node i).
  { intros i. apply obs_w_insert; [exact Hn|reflexivity|reflexivity]. }
  destruct (fold_child_step S1 N1 (seq 0 8) acc0) as (a & Hf & Hinv & Hobs & Hmax).
  { split; [cbn; lia|split; reflexivity]. }
  { intros i Hi. apply in_seq in Hi. cbn. lia. }
  { intros i c Hc. cbn in Hc. subst S1. destruct (decide (ptr = c)) as [<-|Hne].
    - rewrite lookup_insert_eq. eauto.
    - rewrite lookup_insert_ne by exact Hne. exact (Hlive i c Hc). }
  rewrite Hf. cbn [mbind option_bind].
  eexists.
  exists {| is_block := false; parent := parent N1; children := children N1;
            size := size N1; timestamp := ts;
            min_data := write_aggregate (min_data_count a) (min_mean_occupancy a)
                          (min_weight a) (observed_count a) (min_data N1);
            max_data := write_aggregate (max_data_count a) (max_mean_occupancy a)
                          (max_weight a) (observed_count a) (max_data N1) |}.
  split; [reflexivity|]. split; [apply lookup_insert_eq|].
  assert (Hall : all_children_observed s node = forallb (obs_at S1 N1) (seq 0 8)).
  { change (forallb (obs_at s node) (seq 0 8) = forallb (obs_at S1 N1) (seq 0 8)).
    generalize (seq 0 8). intros L.
    induction L as [|i L IH]; [reflexivity|]. cbn. rewrite IH, (proj1 (Hins i)).
    reflexivity. }
  assert (Hsome : some_child_weighted s node = existsb (w_at S1 N1) (seq 0 8)).
  { change (existsb (w_at s node) (seq 0 8) = existsb (w_at S1 N1) (seq 0 8)).
    generalize (seq 0 8). intros L.
    induction L as [|i L IH]; [reflexivity|]. cbn. rewrite IH, (proj2 (Hins i)).
    reflexivity. }
  rewrite Hall, Hsome.
  pose proof (filter_full (obs_at S1 N1) (seq 0 8)) as Hfull.
  rewrite length_seq in Hfull. cbn [observed_count acc0 max_data_count] in Hobs, Hmax.
  cbn [max_data field observed]. unfold write_aggregate.
  destruct (Z.ltb_spec 0 (max_data_count a)) as [Hp|Hp];
  destruct (Z.eqb_spec (observed_count a) 8) as [H8|H8]; cbn [field observed].
  - rewrite <- Hfull. assert (E : length (List.filter (obs_at S1 N1) (seq 0 8)) = 8%nat) by lia.
    rewrite E. destruct (existsb _ _) eqn:Ee; [|exfalso; apply Hmax in Hp; destruct Hp as [Hp|Hp]; [lia|discriminate]].
    rewrite orb_true_r. reflexivity.
  - rewrite <- Hfull. assert (E : length (List.filter (obs_at S1 N1) (seq 0 8)) <> 8%nat) by lia.
    apply Nat.eqb_neq in E. rewrite E. cbn. rewrite orb_false_r. reflexivity.
  - destruct (existsb _ _) eqn:Ee.
    + exfalso. assert (0 < max_data_count a) by (apply Hmax; right; reflexivity). lia.
    + rewrite andb_false_r, orb_false_r. reflexivity.
  - destruct (existsb _ _) eqn:Ee.
    + exfalso. assert (0 < max_data_count a) by (apply Hmax; right; reflexivity). lia.
    + rewrite andb_false_r, orb_false_r. reflexivity.
Qed.

End Prop5.

(** *** Deleting the children of a node *)












(** *** Pruning during propagation to the root *)

Section Prune.
Variable frame : Z.
Variable min_occ : Q.
Variable propagate : Store -> nat -> option (Store * OccField).
Variable fuel : nat.

End Prune.

(** *** Concrete instances *)

Import Examples.

Lemma allocate_idempotent_witness :
  (1 < length (children root_one))%nat /\
  exists c s1,
    allocate 8 block_alloc_example node_alloc_example store_one 0 1 = Some (c, s1) /\
    allocate 8 block_alloc_example node_alloc_example s1 0 1 = Some (c, s1) /\
    allocate_b 8 block_alloc_example node_alloc_example s1 0 1 = Some (false, c, s1).
Proof.
  split; [vm_compute; lia|].
  destruct (allocate_idempotent 8 block_alloc_example node_alloc_example store_one 0 1 root_one
              eq_refl eq_refl ltac:(vm_compute; lia)) as [_ (c & s1 & H1 & H2 & H3 & _)].
  exists c, s1. split; [exact H1|]. split; [exact H2|exact H3].
Defined.

Lemma propagate_observed_witness :
  exists s' node',
    propagate_to_parent_node get_field_example store_full 0 1 = Some (s', max_data node') /\
    s' !! 0%nat = Some node' /\ observed (field (max_data node')) = true.
Proof.
  destruct (propagate_observed get_field_example store_full 0 1 root_full eq_refl eq_refl eq_refl)
    as (s' & node' & H1 & H2 & H3).
  { intros i c H. do 8 (destruct i as [|i]; [injection H as <-; vm_compute; eexists; reflexivity|]).
    discriminate. }
  exists s', node'. split; [exact H1|]. split; [exact H2|]. rewrite H3. vm_compute. reflexivity.
Defined.

(** Claim C5, counterexample: the root of [store_one] has one allocated
    child, observed with weight 1, and 7 null slots, so every non-null
    child is observed; after [propagate_to_parent_node] its max aggregate
    is still not observed. *)
Lemma propagate_observed_counterexample :
  store_one !! 0%nat = Some root_one /\
  nonnull_children_observed store_one root_one = true /\
  match propagate_to_parent_node get_field_example store_one 0 1 with
  | Some (_, d) => observed (field d) = false
  | None => False
  end.
Proof. vm_compute. split; [reflexivity|]. split; reflexivity. Qed.



End OctreeProofs.
